(** * AppFaders driver bridge: the HAL plug-in interface

    A shallow embedding of [Sources/AppFadersDriverBridge/PlugInInterface.c],
    the COM-style entry points that [coreaudiod] calls, and the properties
    of the driver specification checked against it.

    Conventions of the embedding:
    - the three file-scope statics that carry state ([sDriverRefCount],
      [sHost]) form the record [DriverState], threaded explicitly through
      every entry point;
    - a C integer is a [Z]; the wrap-around of [UInt32] arithmetic is
      written out with [UInt32_wrap];
    - a pointer argument is an [LPVOID]; an entry point that stores through
      an out-parameter returns the stored value as [Some v], and [None]
      when no store is executed;
    - a [Float32] or [Float64] is a [float] (binary64, which holds every
      [Float32] value exactly); the C file does no arithmetic on samples;
    - [os_log] output goes to the system log and is never read back by the
      driver, so [LogInfo]/[LogError] (and the lazily created [sPlugInLog])
      are left out of the state;
    - an entry point is a call that runs alone, its atomics executed one
      after the other; [PlugIn_Release], whose test and decrement are two
      atomic operations, is also given as these two steps, and two calls of
      it are interleaved in [interleave]. *)

From Stdlib Require Import ZArith List Bool Lia Ascii String.
From Stdlib Require Import Floats.PrimFloat.
From stdpp Require Import gmap.
Import ListNotations.

Local Open Scope Z_scope.

(** ** Machine integers *)

Definition UInt32 := Z.
Definition SInt32 := Z.
Definition UInt64 := Z.
Definition OSStatus := SInt32.
Definition HRESULT := SInt32.
Definition ULONG := UInt32.
Definition AudioObjectID := UInt32.
Definition pid_t := SInt32.
Definition Boolean := bool.
Definition Float32 := float.
Definition Float64 := float.

Definition UInt32_modulus : Z := 2 ^ 32.
Definition UInt32_max : Z := UInt32_modulus - 1.

Definition UInt32_range (x : Z) : Prop := 0 <= x < UInt32_modulus.

(** Unsigned 32-bit arithmetic is modulo [2^32]. *)
Definition UInt32_wrap (x : Z) : UInt32 := x mod UInt32_modulus.

(** A 32-bit pattern read as a signed integer ([(HRESULT)0x8000...L]). *)
Definition SInt32_of_bits (x : Z) : SInt32 :=
  let u := UInt32_wrap x in
  if u <? 2 ^ 31 then u else u - UInt32_modulus.

(** A four-character code such as ['who?'], big-endian as the compiler
    builds it. *)
Definition FourCC (a b c d : ascii) : SInt32 :=
  SInt32_of_bits
    (Z.lor (Z.shiftl (Z.of_N (N_of_ascii a)) 24)
       (Z.lor (Z.shiftl (Z.of_N (N_of_ascii b)) 16)
          (Z.lor (Z.shiftl (Z.of_N (N_of_ascii c)) 8)
             (Z.of_N (N_of_ascii d))))).

(** ** Status codes

    The values of the macOS SDK headers the file includes:
    [CoreAudio/AudioHardwareBase.h] for [OSStatus],
    [CoreFoundation/CFPlugInCOM.h] for [HRESULT]. *)

Definition kAudioHardwareNoError : OSStatus := 0.
Definition kAudioHardwareUnknownPropertyError : OSStatus :=
  FourCC "w" "h" "o" "?".
Definition kAudioHardwareIllegalOperationError : OSStatus :=
  FourCC "n" "o" "p" "e".
Definition kAudioHardwareBadObjectError : OSStatus :=
  FourCC "!" "o" "b" "j".
Definition kAudioHardwareUnsupportedOperationError : OSStatus :=
  FourCC "u" "n" "o" "p".

Definition S_OK : HRESULT := SInt32_of_bits 0x00000000.
Definition E_NOINTERFACE : HRESULT := SInt32_of_bits 0x80000004.
Definition E_POINTER : HRESULT := SInt32_of_bits 0x80000005.

(** A status other than [kAudioHardwareNoError] is a failure. *)
Definition failed (s : OSStatus) : Prop := s <> kAudioHardwareNoError.

(** ** Pointers *)

(** The two statics whose address the driver hands out. *)
Inductive global : Set :=
| gDriverInterface
| gDriverInterfacePtr.

(** A [void *]: null, the address of one of the driver's statics, or
    memory that belongs to the caller. *)
Inductive LPVOID : Set :=
| NULL
| AddressOf (g : global)
| Foreign (address : positive).

Definition is_null (p : LPVOID) : bool :=
  match p with
  | NULL => true
  | _ => false
  end.

(** [static AudioServerPlugInDriverInterface *gDriverInterfacePtr =
    &gDriverInterface;] and never assigned again. *)
Definition load_global (g : global) : option LPVOID :=
  match g with
  | gDriverInterfacePtr => Some (AddressOf gDriverInterface)
  | gDriverInterface => None
  end.

(** ** CoreFoundation UUIDs *)

(** The sixteen bytes of a [CFUUIDBytes]. A [CFUUIDRef] is modelled by the
    bytes of the object it refers to: UUID objects are compared by value. *)
Definition CFUUIDBytes := list Z.
Definition REFIID := CFUUIDBytes.
Definition CFUUIDRef := CFUUIDBytes.

Definition CFUUIDCreateFromUUIDBytes (bytes : CFUUIDBytes) : CFUUIDRef :=
  bytes.

Definition CFUUIDGetConstantUUIDWithBytes
  (b0 b1 b2 b3 b4 b5 b6 b7 b8 b9 b10 b11 b12 b13 b14 b15 : Z) : CFUUIDRef :=
  [b0; b1; b2; b3; b4; b5; b6; b7; b8; b9; b10; b11; b12; b13; b14; b15].

Definition CFEqual (a b : CFUUIDRef) : Boolean := bool_decide (a = b).

(** ** Host structures *)

Record AudioObjectPropertyAddress : Set := {
  mSelector : UInt32;
  mScope : UInt32;
  mElement : UInt32
}.

Record AudioServerPlugInClientInfo : Set := {
  mClientID : UInt32;
  mProcessID : pid_t;
  mIsNativeEndian : Boolean
}.

Record AudioServerPlugInIOCycleInfo : Set := {
  mIOCycleCounter : UInt64;
  mNominalIOBufferFrameSize : UInt32
}.

(** ** Driver state *)

Record DriverState : Set := {
  sDriverRefCount : UInt32;
  sHost : LPVOID
}.

(** [static _Atomic UInt32 sDriverRefCount = 0;] and
    [static AudioServerPlugInHostRef sHost = NULL;] *)
Definition initial_state : DriverState :=
  {| sDriverRefCount := 0; sHost := NULL |}.

Definition set_sDriverRefCount (st : DriverState) (n : UInt32) : DriverState :=
  {| sDriverRefCount := n; sHost := sHost st |}.

Definition set_sHost (st : DriverState) (h : LPVOID) : DriverState :=
  {| sDriverRefCount := sDriverRefCount st; sHost := h |}.

(** The [stdatomic.h] operations on [sDriverRefCount]; the fetch operations
    return the value held before the update. *)
Definition atomic_load (st : DriverState) : UInt32 := sDriverRefCount st.

Definition atomic_store (st : DriverState) (n : UInt32) : DriverState :=
  set_sDriverRefCount st (UInt32_wrap n).

Definition atomic_fetch_add (st : DriverState) (n : UInt32)
  : UInt32 * DriverState :=
  (sDriverRefCount st,
   set_sDriverRefCount st (UInt32_wrap (sDriverRefCount st + n))).

Definition atomic_fetch_sub (st : DriverState) (n : UInt32)
  : UInt32 * DriverState :=
  (sDriverRefCount st,
   set_sDriverRefCount st (UInt32_wrap (sDriverRefCount st - n))).

(** ** IUnknown methods *)

Definition kDriverInterfaceUUID : CFUUIDRef :=
  CFUUIDGetConstantUUIDWithBytes
    0xEE 0xA5 0x77 0x3D 0xCC 0x43 0x49 0xF1
    0x8E 0x00 0x8F 0x96 0xE7 0xD2 0x3B 0x17.

Definition kIUnknownUUID : CFUUIDRef :=
  CFUUIDGetConstantUUIDWithBytes
    0x00 0x00 0x00 0x00 0x00 0x00 0x00 0x00
    0xC0 0x00 0x00 0x00 0x00 0x00 0x00 0x46.

(** Result: the [HRESULT], the store through [outInterface] (if any) and
    the state left behind. *)
Definition PlugIn_QueryInterface
  (st : DriverState) (inDriver : LPVOID) (inUUID : REFIID)
  (outInterface : LPVOID) : HRESULT * option LPVOID * DriverState :=
  if is_null outInterface then (E_POINTER, None, st)
  else
    let requestedUUID := CFUUIDCreateFromUUIDBytes inUUID in
    let driverInterfaceUUID := kDriverInterfaceUUID in
    let iunknownUUID := kIUnknownUUID in
    let isDriverInterface := CFEqual requestedUUID driverInterfaceUUID in
    let isIUnknown := CFEqual requestedUUID iunknownUUID in
    if isDriverInterface || isIUnknown then
      let st' := snd (atomic_fetch_add st 1) in
      (S_OK, Some (AddressOf gDriverInterfacePtr), st')
    else (E_NOINTERFACE, Some NULL, st).

Definition PlugIn_AddRef (st : DriverState) (inDriver : LPVOID)
  : ULONG * DriverState :=
  let fetched := atomic_fetch_add st 1 in
  let newCount := UInt32_wrap (fst fetched + 1) in
  (newCount, snd fetched).

(** [PlugIn_Release] makes two atomic operations on the count, and another
    thread may run between them. The first: [UInt32 oldCount =
    atomic_load(&sDriverRefCount);]. *)
Definition Release_load (st : DriverState) : UInt32 := atomic_load st.

(** The rest of the body, with the [oldCount] that was loaded: the guarded
    [atomic_fetch_sub] and the return. *)
Definition Release_finish (oldCount : UInt32) (st : DriverState)
  : ULONG * DriverState :=
  if 0 <? oldCount then
    let fetched := atomic_fetch_sub st 1 in
    let newCount := UInt32_wrap (fst fetched - 1) in
    (newCount, snd fetched)
  else (0, st).

(** A call of [PlugIn_Release] that runs alone: the two steps back to
    back. *)
Definition PlugIn_Release (st : DriverState) (inDriver : LPVOID)
  : ULONG * DriverState :=
  let oldCount := Release_load st in
  Release_finish oldCount st.

(** ** Basic operations *)

Definition PlugIn_Initialize
  (st : DriverState) (inDriver : LPVOID) (inHost : LPVOID)
  : OSStatus * DriverState :=
  if is_null inHost then (kAudioHardwareBadObjectError, st)
  else (kAudioHardwareNoError, set_sHost st inHost).

(** Result: the status, the store through [outDeviceObjectID] (none is
    made) and the state. *)
Definition PlugIn_CreateDevice
  (st : DriverState) (inDriver : LPVOID) (inDescription : LPVOID)
  (inClientInfo : option AudioServerPlugInClientInfo)
  (outDeviceObjectID : LPVOID)
  : OSStatus * option AudioObjectID * DriverState :=
  (kAudioHardwareUnsupportedOperationError, None, st).

Definition PlugIn_DestroyDevice
  (st : DriverState) (inDriver : LPVOID) (inDeviceObjectID : AudioObjectID)
  : OSStatus * DriverState :=
  (kAudioHardwareUnsupportedOperationError, st).

(** [inClientInfo] is dereferenced for the log line, so it points to a
    record. Nothing is recorded about the client. *)
Definition PlugIn_AddDeviceClient
  (st : DriverState) (inDriver : LPVOID) (inDeviceObjectID : AudioObjectID)
  (inClientInfo : AudioServerPlugInClientInfo) : OSStatus * DriverState :=
  (kAudioHardwareNoError, st).

Definition PlugIn_RemoveDeviceClient
  (st : DriverState) (inDriver : LPVOID) (inDeviceObjectID : AudioObjectID)
  (inClientInfo : AudioServerPlugInClientInfo) : OSStatus * DriverState :=
  (kAudioHardwareNoError, st).

Definition PlugIn_PerformDeviceConfigurationChange
  (st : DriverState) (inDriver : LPVOID) (inDeviceObjectID : AudioObjectID)
  (inChangeAction : UInt64) (inChangeInfo : LPVOID) : OSStatus * DriverState :=
  (kAudioHardwareNoError, st).

Definition PlugIn_AbortDeviceConfigurationChange
  (st : DriverState) (inDriver : LPVOID) (inDeviceObjectID : AudioObjectID)
  (inChangeAction : UInt64) (inChangeInfo : LPVOID) : OSStatus * DriverState :=
  (kAudioHardwareNoError, st).

(** ** Property operations *)

Definition PlugIn_HasProperty
  (st : DriverState) (inDriver : LPVOID) (inObjectID : AudioObjectID)
  (inClientProcessID : pid_t)
  (inAddress : option AudioObjectPropertyAddress) : Boolean :=
  false.

(** Result: the status and the store through [outIsSettable]. *)
Definition PlugIn_IsPropertySettable
  (st : DriverState) (inDriver : LPVOID) (inObjectID : AudioObjectID)
  (inClientProcessID : pid_t)
  (inAddress : option AudioObjectPropertyAddress)
  (outIsSettable : LPVOID) : OSStatus * option Boolean * DriverState :=
  if is_null outIsSettable then
    (kAudioHardwareIllegalOperationError, None, st)
  else (kAudioHardwareUnknownPropertyError, Some false, st).

(** Result: the status and the store through [outDataSize]. *)
Definition PlugIn_GetPropertyDataSize
  (st : DriverState) (inDriver : LPVOID) (inObjectID : AudioObjectID)
  (inClientProcessID : pid_t)
  (inAddress : option AudioObjectPropertyAddress)
  (inQualifierDataSize : UInt32) (inQualifierData : LPVOID)
  (outDataSize : LPVOID) : OSStatus * option UInt32 * DriverState :=
  if is_null outDataSize then
    (kAudioHardwareIllegalOperationError, None, st)
  else (kAudioHardwareUnknownPropertyError, Some 0, st).

(** Result: the status, the store through [outDataSize] and the bytes
    stored into the buffer [outData] (none on any path). *)
Definition PlugIn_GetPropertyData
  (st : DriverState) (inDriver : LPVOID) (inObjectID : AudioObjectID)
  (inClientProcessID : pid_t)
  (inAddress : option AudioObjectPropertyAddress)
  (inQualifierDataSize : UInt32) (inQualifierData : LPVOID)
  (inDataSize : UInt32) (outDataSize : LPVOID) (outData : LPVOID)
  : OSStatus * option UInt32 * list Z * DriverState :=
  if is_null outDataSize || is_null outData then
    (kAudioHardwareIllegalOperationError, None, [], st)
  else (kAudioHardwareUnknownPropertyError, Some 0, [], st).

Definition PlugIn_SetPropertyData
  (st : DriverState) (inDriver : LPVOID) (inObjectID : AudioObjectID)
  (inClientProcessID : pid_t)
  (inAddress : option AudioObjectPropertyAddress)
  (inQualifierDataSize : UInt32) (inQualifierData : LPVOID)
  (inDataSize : UInt32) (inData : LPVOID) : OSStatus * DriverState :=
  (kAudioHardwareUnknownPropertyError, st).

(** ** IO operations *)

Definition PlugIn_StartIO
  (st : DriverState) (inDriver : LPVOID) (inDeviceObjectID : AudioObjectID)
  (inClientID : UInt32) : OSStatus * DriverState :=
  (kAudioHardwareNoError, st).

Definition PlugIn_StopIO
  (st : DriverState) (inDriver : LPVOID) (inDeviceObjectID : AudioObjectID)
  (inClientID : UInt32) : OSStatus * DriverState :=
  (kAudioHardwareNoError, st).

(** A store through [out] of [v], made only when [out] is not null. *)
Definition store_if_set {A : Type} (out : LPVOID) (v : A) : option A :=
  if is_null out then None else Some v.

Definition PlugIn_GetZeroTimeStamp
  (st : DriverState) (inDriver : LPVOID) (inDeviceObjectID : AudioObjectID)
  (inClientID : UInt32) (outSampleTime outHostTime outSeed : LPVOID)
  : OSStatus * option Float64 * option UInt64 * option UInt64 * DriverState :=
  (kAudioHardwareNoError,
   store_if_set outSampleTime 0%float,
   store_if_set outHostTime 0,
   store_if_set outSeed 1,
   st).

Definition PlugIn_WillDoIOOperation
  (st : DriverState) (inDriver : LPVOID) (inDeviceObjectID : AudioObjectID)
  (inClientID : UInt32) (inOperationID : UInt32)
  (outWillDo outWillDoInPlace : LPVOID)
  : OSStatus * option Boolean * option Boolean * DriverState :=
  (kAudioHardwareNoError,
   store_if_set outWillDo false,
   store_if_set outWillDoInPlace true,
   st).

Definition PlugIn_BeginIOOperation
  (st : DriverState) (inDriver : LPVOID) (inDeviceObjectID : AudioObjectID)
  (inClientID : UInt32) (inOperationID : UInt32)
  (inIOBufferFrameSize : UInt32)
  (inIOCycleInfo : option AudioServerPlugInIOCycleInfo)
  : OSStatus * DriverState :=
  (kAudioHardwareNoError, st).

(** The two [void *] buffers are given by their contents ([None] for a null
    pointer), frames of [Float32] samples. Result: the status and the
    contents of both buffers after the call. *)
Definition PlugIn_DoIOOperation
  (st : DriverState) (inDriver : LPVOID) (inDeviceObjectID : AudioObjectID)
  (inStreamObjectID : AudioObjectID) (inClientID : UInt32)
  (inOperationID : UInt32) (inIOBufferFrameSize : UInt32)
  (inIOCycleInfo : option AudioServerPlugInIOCycleInfo)
  (ioMainBuffer ioSecondaryBuffer : option (list Float32))
  : OSStatus * option (list Float32) * option (list Float32) * DriverState :=
  (kAudioHardwareNoError, ioMainBuffer, ioSecondaryBuffer, st).

Definition PlugIn_EndIOOperation
  (st : DriverState) (inDriver : LPVOID) (inDeviceObjectID : AudioObjectID)
  (inClientID : UInt32) (inOperationID : UInt32)
  (inIOBufferFrameSize : UInt32)
  (inIOCycleInfo : option AudioServerPlugInIOCycleInfo)
  : OSStatus * DriverState :=
  (kAudioHardwareNoError, st).

(** ** Factory function *)

Definition kAudioServerPlugInTypeUUID : CFUUIDRef :=
  CFUUIDGetConstantUUIDWithBytes
    0x44 0x3A 0xBA 0xB8 0xE7 0xB3 0x49 0x1A
    0xB9 0x85 0xBE 0xB9 0x18 0x70 0x30 0xDB.

(** Result: the returned pointer and the state. *)
Definition AppFadersDriver_Create
  (st : DriverState) (allocator : LPVOID) (requestedTypeUUID : CFUUIDRef)
  : LPVOID * DriverState :=
  let audioServerPlugInTypeUUID := kAudioServerPlugInTypeUUID in
  if negb (CFEqual requestedTypeUUID audioServerPlugInTypeUUID) then
    (NULL, st)
  else (AddressOf gDriverInterfacePtr, atomic_store st 1).

(** * The virtual-device core of the specification

    The C file tracks no clients and stores no gain (the [TODO(task6)] to
    [TODO(task9)] markers): the Client Registry and the Gain Table exist
    only in the specification. This module follows its sections 3, 4.1 and
    4.2. *)

Module Core.

(** Modelled from the spec: the Client of section 3, "client identifier
    (host-assigned), process identifier"; the identifier is the key of the
    registry, and the connection timestamp is left out ([add] is given no
    time). No entry point of the C file builds one. *)
Record ClientInfo : Set := {
  processId : pid_t
}.

(** Modelled from the spec: the Gain Entry of section 3, "a single client's
    target gain multiplier ... plus a ramped/current value". *)
Record GainEntry : Set := {
  target_gain : Float32;
  ramped_gain : Float32
}.

(** Modelled from the spec: the Client Registry and the Gain Table, both
    keyed by client identifier (sections 2 and 3); neither exists in the C
    file. *)
Record CoreState : Type := {
  registry : gmap Z ClientInfo;
  gain_table : gmap Z GainEntry
}.

Definition empty : CoreState := {| registry := ∅; gain_table := ∅ |}.

Inductive Error : Set :=
| DuplicateClient
| UnknownClient.

(** Modelled from the spec: [lookup(clientId) -> Option<ClientInfo>] of
    section 4.1. *)
Definition lookup (c : Z) (st : CoreState) : option ClientInfo :=
  registry st !! c.

(** Modelled from the spec: [add] of section 4.1, "fails if clientId
    already present; otherwise inserts and returns success". *)
Definition add (c : Z) (pid : pid_t) (st : CoreState)
  : option Error * CoreState :=
  match registry st !! c with
  | Some _ => (Some DuplicateClient, st)
  | None =>
      (None,
       {| registry := <[c := {| processId := pid |}]> (registry st);
          gain_table := gain_table st |})
  end.

(** Modelled from the spec: [remove] of section 4.1, "removes client and
    ... clears its gain entry", failing with [UnknownClient] otherwise. *)
Definition remove (c : Z) (st : CoreState) : option Error * CoreState :=
  match registry st !! c with
  | None => (Some UnknownClient, st)
  | Some _ =>
      (None,
       {| registry := delete c (registry st);
          gain_table := delete c (gain_table st) |})
  end.

(** Modelled from the spec: [current_gain] of section 4.2, "Returns 1.0
    (unity) for unknown clients rather than failing"; for a client with an
    entry it is the ramped value. *)
Definition current_gain (c : Z) (st : CoreState) : Float32 :=
  match gain_table st !! c with
  | Some e => ramped_gain e
  | None => 1.0%float
  end.

(** Modelled from the spec: [set_gain] of section 4.2, "stores the new
    target"; the ramp starts from the gain the client has now. Section 3
    makes the key set of the Gain Table a subset of the registry's at all
    times, so nothing is stored for a client that is not registered. *)
Definition set_gain (c : Z) (g : Float32) (st : CoreState) : CoreState :=
  match registry st !! c with
  | None => st
  | Some _ =>
      {| registry := registry st;
         gain_table :=
           <[c := {| target_gain := g; ramped_gain := current_gain c st |}]>
             (gain_table st) |}
  end.

(** Modelled from the spec: the invariant of section 3, "the Gain Table's
    key set is always a subset of the Client Registry's key set". *)
Definition gain_keys_registered (st : CoreState) : Prop :=
  forall c : Z, registry st !! c = None -> gain_table st !! c = None.

Section Ramp.

(** Modelled from the spec: "the ramp rate is a tunable constant, not a
    per-call parameter" (section 4.2). *)
Variable ramp_step : Float32.

(** Modelled from the spec: one step of the linear ramp of section 4.2,
    "from current to target value in fixed increments", stopping at the
    target. *)
Definition ramp (e : GainEntry) : GainEntry :=
  let t := target_gain e in
  let g := ramped_gain e in
  let g' :=
    if (g <? t)%float then
      let up := (g + ramp_step)%float in
      if (t <? up)%float then t else up
    else if (t <? g)%float then
      let down := (g - ramp_step)%float in
      if (down <? t)%float then t else down
    else g in
  {| target_gain := t; ramped_gain := g' |}.

(** Modelled from the spec: what a callback does to the Gain Table,
    "advance the smoothing ramp by one step" (section 4.4). *)
Definition advance (st : CoreState) : CoreState :=
  {| registry := registry st; gain_table := ramp <$> gain_table st |}.

(** The calls the host can make on the core, in any order. *)
Inductive step : CoreState -> CoreState -> Prop :=
| step_add c pid st : step st (snd (add c pid st))
| step_remove c st : step st (snd (remove c st))
| step_set_gain c g st : step st (set_gain c g st)
| step_advance st : step st (advance st).

Inductive reachable : CoreState -> Prop :=
| reachable_empty : reachable empty
| reachable_step st st' : reachable st -> step st st' -> reachable st'.

End Ramp.

End Core.

(** * Scenarios of the specification, run on the entry points *)

(** The driver reference the host passes back as [inDriver]. *)
Definition driver_ref : LPVOID := AddressOf gDriverInterfacePtr.

(** Object identifiers of the scenarios; the C file names none, and no entry
    point looks at them. *)
Definition device_id : AudioObjectID := 2.
Definition stream_id : AudioObjectID := 3.

Definition kAudioServerPlugInIOOperationWriteMix : UInt32 :=
  FourCC "r" "i" "t" "e".

(** The gain that turns sample [input] into sample [output]. *)
Definition effective_gain (input output : Float32) : float :=
  (output / input)%float.

(** A gain "strictly between 1.0 and 0.5". *)
Definition ramping (g : float) : Prop :=
  (0.5 <? g)%float = true /\ (g <? 1.0)%float = true.

Definition client_A : AudioServerPlugInClientInfo :=
  {| mClientID := 1; mProcessID := 100; mIsNativeEndian := true |}.

Definition two_frames : list Float32 := [1.0%float; 1.0%float].

(** Client A (id 1, pid 100) is added, its gain is set to 0.5, then one IO
    operation runs for it over the two frames. The C file has no call that
    sets a gain, so the setter is a parameter: [set_gain] stands for
    whatever such a call does to the driver state. *)
Definition gain_scenario
  (set_gain : UInt32 -> Float32 -> DriverState -> DriverState)
  : OSStatus * option (list Float32) * option (list Float32) * DriverState :=
  let st1 :=
    snd (PlugIn_AddDeviceClient initial_state driver_ref device_id client_A) in
  let st2 := set_gain (mClientID client_A) 0.5%float st1 in
  PlugIn_DoIOOperation st2 driver_ref device_id stream_id (mClientID client_A)
    kAudioServerPlugInIOOperationWriteMix 2 None (Some two_frames) None.

Definition main_buffer_of
  (r : OSStatus * option (list Float32) * option (list Float32) * DriverState)
  : list Float32 :=
  match r with
  | (_, Some frames, _, _) => frames
  | (_, None, _, _) => []
  end.

Definition gain_scenario_gains
  (set_gain : UInt32 -> Float32 -> DriverState -> DriverState) : list float :=
  zip_with effective_gain two_frames (main_buffer_of (gain_scenario set_gain)).

Definition client_5 : AudioServerPlugInClientInfo :=
  {| mClientID := 5; mProcessID := 100; mIsNativeEndian := true |}.

(** The second of two [PlugIn_AddDeviceClient] calls for client id 5. *)
Definition add_twice : OSStatus * DriverState :=
  let st1 :=
    snd (PlugIn_AddDeviceClient initial_state driver_ref device_id client_5) in
  PlugIn_AddDeviceClient st1 driver_ref device_id client_5.

Definition kAudioDevicePropertyNominalSampleRate : UInt32 :=
  FourCC "n" "s" "r" "t".
Definition kAudioObjectPropertyScopeGlobal : UInt32 :=
  FourCC "g" "l" "o" "b".
Definition kAudioObjectPropertyElementMain : UInt32 := 0.

Definition sample_rate_address : AudioObjectPropertyAddress :=
  {| mSelector := kAudioDevicePropertyNominalSampleRate;
     mScope := kAudioObjectPropertyScopeGlobal;
     mElement := kAudioObjectPropertyElementMain |}.

(** The size query for the sample rate of the device, with a place for the
    answer. *)
Definition sample_rate_size_query : OSStatus * option UInt32 * DriverState :=
  PlugIn_GetPropertyDataSize initial_state driver_ref device_id 0
    (Some sample_rate_address) 0 NULL (Foreign 1).

(** The data query for the same property, with an 8-byte buffer. *)
Definition sample_rate_data_query
  : OSStatus * option UInt32 * list Z * DriverState :=
  PlugIn_GetPropertyData initial_state driver_ref device_id 0
    (Some sample_rate_address) 0 NULL 8 (Foreign 1) (Foreign 2).

(** * Logging *)

(** [static os_log_t sPlugInLog = NULL;], kept apart from [DriverState],
    with the number of logs the system has created so far: [os_log_create]
    is a system call, and its n-th use may hand out any handle. *)
Record LogState : Set := {
  sPlugInLog : LPVOID;
  logs_created : nat
}.

Definition initial_log : LogState :=
  {| sPlugInLog := NULL; logs_created := 0 |}.

Section Logging.

Variable os_log_create : nat -> string -> string -> LPVOID.

(** Result: the returned log and the state. *)
Definition GetPlugInLog (ls : LogState) : LPVOID * LogState :=
  if is_null (sPlugInLog ls) then
    let created :=
      os_log_create (logs_created ls)
        "com.fbreidenbach.appfaders.driver" "PlugIn" in
    (created,
     {| sPlugInLog := created; logs_created := S (logs_created ls) |})
  else (sPlugInLog ls, ls).

(** What the [LogInfo] and [LogError] macros do to the log state: one
    [GetPlugInLog] call each. *)
Definition log_lines (n : nat) (ls : LogState) : LogState :=
  Nat.iter n (fun ls' => snd (GetPlugInLog ls')) ls.

End Logging.

(** * The driver interface *)

(** The slots of [AudioServerPlugInDriverInterface], in the order of the
    initializer of [gDriverInterface]. *)
Record AudioServerPlugInDriverInterface : Type := {
  _reserved : LPVOID;
  QueryInterface :
    DriverState -> LPVOID -> REFIID -> LPVOID ->
    HRESULT * option LPVOID * DriverState;
  AddRef : DriverState -> LPVOID -> ULONG * DriverState;
  Release : DriverState -> LPVOID -> ULONG * DriverState;
  Initialize : DriverState -> LPVOID -> LPVOID -> OSStatus * DriverState;
  CreateDevice :
    DriverState -> LPVOID -> LPVOID -> option AudioServerPlugInClientInfo ->
    LPVOID -> OSStatus * option AudioObjectID * DriverState;
  DestroyDevice :
    DriverState -> LPVOID -> AudioObjectID -> OSStatus * DriverState;
  AddDeviceClient :
    DriverState -> LPVOID -> AudioObjectID -> AudioServerPlugInClientInfo ->
    OSStatus * DriverState;
  RemoveDeviceClient :
    DriverState -> LPVOID -> AudioObjectID -> AudioServerPlugInClientInfo ->
    OSStatus * DriverState;
  PerformDeviceConfigurationChange :
    DriverState -> LPVOID -> AudioObjectID -> UInt64 -> LPVOID ->
    OSStatus * DriverState;
  AbortDeviceConfigurationChange :
    DriverState -> LPVOID -> AudioObjectID -> UInt64 -> LPVOID ->
    OSStatus * DriverState;
  HasProperty :
    DriverState -> LPVOID -> AudioObjectID -> pid_t ->
    option AudioObjectPropertyAddress -> Boolean;
  IsPropertySettable :
    DriverState -> LPVOID -> AudioObjectID -> pid_t ->
    option AudioObjectPropertyAddress -> LPVOID ->
    OSStatus * option Boolean * DriverState;
  GetPropertyDataSize :
    DriverState -> LPVOID -> AudioObjectID -> pid_t ->
    option AudioObjectPropertyAddress -> UInt32 -> LPVOID -> LPVOID ->
    OSStatus * option UInt32 * DriverState;
  GetPropertyData :
    DriverState -> LPVOID -> AudioObjectID -> pid_t ->
    option AudioObjectPropertyAddress -> UInt32 -> LPVOID -> UInt32 ->
    LPVOID -> LPVOID -> OSStatus * option UInt32 * list Z * DriverState;
  SetPropertyData :
    DriverState -> LPVOID -> AudioObjectID -> pid_t ->
    option AudioObjectPropertyAddress -> UInt32 -> LPVOID -> UInt32 ->
    LPVOID -> OSStatus * DriverState;
  StartIO :
    DriverState -> LPVOID -> AudioObjectID -> UInt32 -> OSStatus * DriverState;
  StopIO :
    DriverState -> LPVOID -> AudioObjectID -> UInt32 -> OSStatus * DriverState;
  GetZeroTimeStamp :
    DriverState -> LPVOID -> AudioObjectID -> UInt32 ->
    LPVOID -> LPVOID -> LPVOID ->
    OSStatus * option Float64 * option UInt64 * option UInt64 * DriverState;
  WillDoIOOperation :
    DriverState -> LPVOID -> AudioObjectID -> UInt32 -> UInt32 ->
    LPVOID -> LPVOID ->
    OSStatus * option Boolean * option Boolean * DriverState;
  BeginIOOperation :
    DriverState -> LPVOID -> AudioObjectID -> UInt32 -> UInt32 -> UInt32 ->
    option AudioServerPlugInIOCycleInfo -> OSStatus * DriverState;
  DoIOOperation :
    DriverState -> LPVOID -> AudioObjectID -> AudioObjectID -> UInt32 ->
    UInt32 -> UInt32 -> option AudioServerPlugInIOCycleInfo ->
    option (list Float32) -> option (list Float32) ->
    OSStatus * option (list Float32) * option (list Float32) * DriverState;
  EndIOOperation :
    DriverState -> LPVOID -> AudioObjectID -> UInt32 -> UInt32 -> UInt32 ->
    option AudioServerPlugInIOCycleInfo -> OSStatus * DriverState
}.

(** The contents of the static [gDriverInterface]; the constructor
    [gDriverInterface] of [global] is its address. *)
Definition gDriverInterface_table : AudioServerPlugInDriverInterface :=
  {| _reserved := NULL;
     QueryInterface := PlugIn_QueryInterface;
     AddRef := PlugIn_AddRef;
     Release := PlugIn_Release;
     Initialize := PlugIn_Initialize;
     CreateDevice := PlugIn_CreateDevice;
     DestroyDevice := PlugIn_DestroyDevice;
     AddDeviceClient := PlugIn_AddDeviceClient;
     RemoveDeviceClient := PlugIn_RemoveDeviceClient;
     PerformDeviceConfigurationChange :=
       PlugIn_PerformDeviceConfigurationChange;
     AbortDeviceConfigurationChange := PlugIn_AbortDeviceConfigurationChange;
     HasProperty := PlugIn_HasProperty;
     IsPropertySettable := PlugIn_IsPropertySettable;
     GetPropertyDataSize := PlugIn_GetPropertyDataSize;
     GetPropertyData := PlugIn_GetPropertyData;
     SetPropertyData := PlugIn_SetPropertyData;
     StartIO := PlugIn_StartIO;
     StopIO := PlugIn_StopIO;
     GetZeroTimeStamp := PlugIn_GetZeroTimeStamp;
     WillDoIOOperation := PlugIn_WillDoIOOperation;
     BeginIOOperation := PlugIn_BeginIOOperation;
     DoIOOperation := PlugIn_DoIOOperation;
     EndIOOperation := PlugIn_EndIOOperation |}.

(** What the host finds behind a driver reference, [*driver]: the reference
    points to an interface pointer, which points to the table. *)
Definition driver_interface (driver : LPVOID)
  : option AudioServerPlugInDriverInterface :=
  match driver with
  | AddressOf g =>
      match load_global g with
      | Some (AddressOf gDriverInterface) => Some gDriverInterface_table
      | _ => None
      end
  | _ => None
  end.

(** ** Calls of the host *)

(** One call through a slot of the table, with its arguments ([inDriver]
    apart, which is the driver reference). *)
Inductive HostCall : Type :=
| CallQueryInterface (inUUID : REFIID) (outInterface : LPVOID)
| CallAddRef
| CallRelease
| CallInitialize (inHost : LPVOID)
| CallCreateDevice (inDescription : LPVOID)
    (inClientInfo : option AudioServerPlugInClientInfo)
    (outDeviceObjectID : LPVOID)
| CallDestroyDevice (inDeviceObjectID : AudioObjectID)
| CallAddDeviceClient (inDeviceObjectID : AudioObjectID)
    (inClientInfo : AudioServerPlugInClientInfo)
| CallRemoveDeviceClient (inDeviceObjectID : AudioObjectID)
    (inClientInfo : AudioServerPlugInClientInfo)
| CallPerformDeviceConfigurationChange (inDeviceObjectID : AudioObjectID)
    (inChangeAction : UInt64) (inChangeInfo : LPVOID)
| CallAbortDeviceConfigurationChange (inDeviceObjectID : AudioObjectID)
    (inChangeAction : UInt64) (inChangeInfo : LPVOID)
| CallHasProperty (inObjectID : AudioObjectID) (inClientProcessID : pid_t)
    (inAddress : option AudioObjectPropertyAddress)
| CallIsPropertySettable (inObjectID : AudioObjectID)
    (inClientProcessID : pid_t)
    (inAddress : option AudioObjectPropertyAddress) (outIsSettable : LPVOID)
| CallGetPropertyDataSize (inObjectID : AudioObjectID)
    (inClientProcessID : pid_t)
    (inAddress : option AudioObjectPropertyAddress)
    (inQualifierDataSize : UInt32) (inQualifierData outDataSize : LPVOID)
| CallGetPropertyData (inObjectID : AudioObjectID)
    (inClientProcessID : pid_t)
    (inAddress : option AudioObjectPropertyAddress)
    (inQualifierDataSize : UInt32) (inQualifierData : LPVOID)
    (inDataSize : UInt32) (outDataSize outData : LPVOID)
| CallSetPropertyData (inObjectID : AudioObjectID)
    (inClientProcessID : pid_t)
    (inAddress : option AudioObjectPropertyAddress)
    (inQualifierDataSize : UInt32) (inQualifierData : LPVOID)
    (inDataSize : UInt32) (inData : LPVOID)
| CallStartIO (inDeviceObjectID : AudioObjectID) (inClientID : UInt32)
| CallStopIO (inDeviceObjectID : AudioObjectID) (inClientID : UInt32)
| CallGetZeroTimeStamp (inDeviceObjectID : AudioObjectID)
    (inClientID : UInt32) (outSampleTime outHostTime outSeed : LPVOID)
| CallWillDoIOOperation (inDeviceObjectID : AudioObjectID)
    (inClientID inOperationID : UInt32) (outWillDo outWillDoInPlace : LPVOID)
| CallBeginIOOperation (inDeviceObjectID : AudioObjectID)
    (inClientID inOperationID inIOBufferFrameSize : UInt32)
    (inIOCycleInfo : option AudioServerPlugInIOCycleInfo)
| CallDoIOOperation (inDeviceObjectID inStreamObjectID : AudioObjectID)
    (inClientID inOperationID inIOBufferFrameSize : UInt32)
    (inIOCycleInfo : option AudioServerPlugInIOCycleInfo)
    (ioMainBuffer ioSecondaryBuffer : option (list Float32))
| CallEndIOOperation (inDeviceObjectID : AudioObjectID)
    (inClientID inOperationID inIOBufferFrameSize : UInt32)
    (inIOCycleInfo : option AudioServerPlugInIOCycleInfo).

(** What a call returns to the host. *)
Inductive Reply : Set :=
| ReplyHRESULT (result : HRESULT)
| ReplyCount (count : ULONG)
| ReplyStatus (status : OSStatus)
| ReplyBoolean (answer : Boolean).

(** The host makes call [c] on [driver] through the table [vt]. *)
Definition perform (vt : AudioServerPlugInDriverInterface) (driver : LPVOID)
  (c : HostCall) (st : DriverState) : Reply * DriverState :=
  match c with
  | CallQueryInterface inUUID outInterface =>
      let r := QueryInterface vt st driver inUUID outInterface in
      (ReplyHRESULT (fst (fst r)), snd r)
  | CallAddRef =>
      let r := AddRef vt st driver in (ReplyCount (fst r), snd r)
  | CallRelease =>
      let r := Release vt st driver in (ReplyCount (fst r), snd r)
  | CallInitialize inHost =>
      let r := Initialize vt st driver inHost in (ReplyStatus (fst r), snd r)
  | CallCreateDevice inDescription inClientInfo outDeviceObjectID =>
      let r :=
        CreateDevice vt st driver inDescription inClientInfo
          outDeviceObjectID in
      (ReplyStatus (fst (fst r)), snd r)
  | CallDestroyDevice dev =>
      let r := DestroyDevice vt st driver dev in (ReplyStatus (fst r), snd r)
  | CallAddDeviceClient dev info =>
      let r := AddDeviceClient vt st driver dev info in
      (ReplyStatus (fst r), snd r)
  | CallRemoveDeviceClient dev info =>
      let r := RemoveDeviceClient vt st driver dev info in
      (ReplyStatus (fst r), snd r)
  | CallPerformDeviceConfigurationChange dev action info =>
      let r := PerformDeviceConfigurationChange vt st driver dev action info in
      (ReplyStatus (fst r), snd r)
  | CallAbortDeviceConfigurationChange dev action info =>
      let r := AbortDeviceConfigurationChange vt st driver dev action info in
      (ReplyStatus (fst r), snd r)
  | CallHasProperty obj pid address =>
      (ReplyBoolean (HasProperty vt st driver obj pid address), st)
  | CallIsPropertySettable obj pid address out =>
      let r := IsPropertySettable vt st driver obj pid address out in
      (ReplyStatus (fst (fst r)), snd r)
  | CallGetPropertyDataSize obj pid address qsize qdata out =>
      let r :=
        GetPropertyDataSize vt st driver obj pid address qsize qdata out in
      (ReplyStatus (fst (fst r)), snd r)
  | CallGetPropertyData obj pid address qsize qdata size outSize outData =>
      let r :=
        GetPropertyData vt st driver obj pid address qsize qdata size outSize
          outData in
      (ReplyStatus (fst (fst (fst r))), snd r)
  | CallSetPropertyData obj pid address qsize qdata size data =>
      let r :=
        SetPropertyData vt st driver obj pid address qsize qdata size data in
      (ReplyStatus (fst r), snd r)
  | CallStartIO dev client =>
      let r := StartIO vt st driver dev client in (ReplyStatus (fst r), snd r)
  | CallStopIO dev client =>
      let r := StopIO vt st driver dev client in (ReplyStatus (fst r), snd r)
  | CallGetZeroTimeStamp dev client outSampleTime outHostTime outSeed =>
      let r :=
        GetZeroTimeStamp vt st driver dev client outSampleTime outHostTime
          outSeed in
      (ReplyStatus (fst (fst (fst (fst r)))), snd r)
  | CallWillDoIOOperation dev client op outWillDo outWillDoInPlace =>
      let r :=
        WillDoIOOperation vt st driver dev client op outWillDo
          outWillDoInPlace in
      (ReplyStatus (fst (fst (fst r))), snd r)
  | CallBeginIOOperation dev client op frames info =>
      let r := BeginIOOperation vt st driver dev client op frames info in
      (ReplyStatus (fst r), snd r)
  | CallDoIOOperation dev stream client op frames info main secondary =>
      let r :=
        DoIOOperation vt st driver dev stream client op frames info main
          secondary in
      (ReplyStatus (fst (fst (fst r))), snd r)
  | CallEndIOOperation dev client op frames info =>
      let r := EndIOOperation vt st driver dev client op frames info in
      (ReplyStatus (fst r), snd r)
  end.

(** The calls of a list made one after the other on the driver's own
    table: the state they leave, and the replies they get. *)
Fixpoint run (calls : list HostCall) (st : DriverState) : DriverState :=
  match calls with
  | [] => st
  | c :: rest =>
      run rest (snd (perform gDriverInterface_table driver_ref c st))
  end.

Fixpoint replies (calls : list HostCall) (st : DriverState) : list Reply :=
  match calls with
  | [] => []
  | c :: rest =>
      let r := perform gDriverInterface_table driver_ref c st in
      fst r :: replies rest (snd r)
  end.

(** The calls that write the driver state: the IUnknown methods and
    [Initialize]. *)
Definition writes_state (c : HostCall) : bool :=
  match c with
  | CallQueryInterface _ _ | CallAddRef | CallRelease | CallInitialize _ =>
      true
  | _ => false
  end.

(** The calls that return a count rather than a status. *)
Definition returns_count (c : HostCall) : bool :=
  match c with
  | CallAddRef | CallRelease => true
  | _ => false
  end.

(** The client, IO-bracket and configuration-change notifications. *)
Definition is_notification (c : HostCall) : bool :=
  match c with
  | CallAddDeviceClient _ _ | CallRemoveDeviceClient _ _
  | CallPerformDeviceConfigurationChange _ _ _
  | CallAbortDeviceConfigurationChange _ _ _
  | CallStartIO _ _ | CallStopIO _ _ => true
  | _ => false
  end.

(** The host recorded after [calls], starting from [host]: the argument of
    the last [Initialize] that was given a host. *)
Fixpoint host_after (calls : list HostCall) (host : LPVOID) : LPVOID :=
  match calls with
  | [] => host
  | CallInitialize inHost :: rest =>
      host_after rest (if is_null inHost then host else inHost)
  | _ :: rest => host_after rest host
  end.

(** ** IO cycles *)

(** [n] cycles of Begin, Do, End for one client on one stream, each cycle
    working on the buffers the one before left. Result: the statuses in
    order, the two buffers and the state. *)
Fixpoint io_cycles (n : nat) (st : DriverState)
  (dev stream : AudioObjectID) (client op frames : UInt32)
  (info : option AudioServerPlugInIOCycleInfo)
  (main secondary : option (list Float32))
  : list OSStatus * option (list Float32) * option (list Float32)
    * DriverState :=
  match n with
  | O => ([], main, secondary, st)
  | S n' =>
      let b := PlugIn_BeginIOOperation st driver_ref dev client op frames info in
      let d :=
        PlugIn_DoIOOperation (snd b) driver_ref dev stream client op frames
          info main secondary in
      let '(dstatus, main', secondary', st2) := d in
      let e := PlugIn_EndIOOperation st2 driver_ref dev client op frames info in
      let '(statuses, main'', secondary'', st3) :=
        io_cycles n' (snd e) dev stream client op frames info main' secondary' in
      (fst b :: dstatus :: fst e :: statuses, main'', secondary'', st3)
  end.

(** A whole IO session: StartIO, [n] cycles, StopIO. *)
Definition io_session (n : nat) (st : DriverState)
  (dev stream : AudioObjectID) (client op frames : UInt32)
  (info : option AudioServerPlugInIOCycleInfo)
  (main secondary : option (list Float32))
  : list OSStatus * option (list Float32) * option (list Float32)
    * DriverState :=
  let s := PlugIn_StartIO st driver_ref dev client in
  let '(statuses, main', secondary', st1) :=
    io_cycles n (snd s) dev stream client op frames info main secondary in
  let e := PlugIn_StopIO st1 driver_ref dev client in
  (fst s :: statuses ++ [fst e], main', secondary', snd e).

(** ** Two calls of [PlugIn_Release] at once *)

(** How far a call of [PlugIn_Release] has got: entered, past the
    [atomic_load] with the [oldCount] it saw, or returned. *)
Inductive ReleaseCall : Set :=
| Entered
| Loaded (oldCount : UInt32)
| Returned (newCount : ULONG).

(** The next atomic step of a call. *)
Definition release_step (call : ReleaseCall) (st : DriverState)
  : ReleaseCall * DriverState :=
  match call with
  | Entered => (Loaded (Release_load st), st)
  | Loaded oldCount =>
      let r := Release_finish oldCount st in (Returned (fst r), snd r)
  | Returned newCount => (Returned newCount, st)
  end.

Inductive Caller : Set :=
| CallerA
| CallerB.

(** Two threads in [PlugIn_Release]; the schedule names the thread that
    makes the next step. *)
Fixpoint interleave (schedule : list Caller) (a b : ReleaseCall)
  (st : DriverState) : ReleaseCall * ReleaseCall * DriverState :=
  match schedule with
  | [] => (a, b, st)
  | CallerA :: rest =>
      let r := release_step a st in interleave rest (fst r) b (snd r)
  | CallerB :: rest =>
      let r := release_step b st in interleave rest a (fst r) (snd r)
  end.

(** ** The devices the driver publishes *)






(** * Properties *)

(** ** Helper facts *)

Lemma CFEqual_true (a b : CFUUIDRef) : CFEqual a b = true <-> a = b.
Proof. unfold CFEqual. apply bool_decide_eq_true. Qed.

Lemma CFEqual_false (a b : CFUUIDRef) : CFEqual a b = false <-> a <> b.
Proof. unfold CFEqual. apply bool_decide_eq_false. Qed.

Lemma is_null_true (p : LPVOID) : is_null p = true <-> p = NULL.
Proof. destruct p; simpl; split; congruence. Qed.

Lemma is_null_false (p : LPVOID) : is_null p = false <-> p <> NULL.
Proof. destruct p; simpl; split; congruence. Qed.

Lemma UInt32_wrap_small (x : Z) : UInt32_range x -> UInt32_wrap x = x.
Proof. unfold UInt32_range, UInt32_wrap. intros H. apply Z.mod_small, H. Qed.

Lemma UInt32_wrap_range (x : Z) : UInt32_range (UInt32_wrap x).
Proof.
  unfold UInt32_range, UInt32_wrap, UInt32_modulus.
  apply Z.mod_pos_bound. lia.
Qed.

(** The reference count starts at 0 and every entry point that writes it
    keeps it within [UInt32]. *)
Lemma refcount_stays_in_UInt32
  (st : DriverState) (inDriver : LPVOID) (inUUID : REFIID)
  (outInterface allocator : LPVOID) (requestedTypeUUID : CFUUIDRef) :
  UInt32_range (sDriverRefCount st) ->
  UInt32_range
    (sDriverRefCount (snd (PlugIn_QueryInterface st inDriver inUUID outInterface)))
  /\ UInt32_range (sDriverRefCount (snd (PlugIn_AddRef st inDriver)))
  /\ UInt32_range (sDriverRefCount (snd (PlugIn_Release st inDriver)))
  /\ UInt32_range
       (sDriverRefCount
          (snd (AppFadersDriver_Create st allocator requestedTypeUUID))).
Proof.
  intros Hrange.
  unfold PlugIn_QueryInterface, PlugIn_AddRef, PlugIn_Release, Release_load,
    Release_finish, AppFadersDriver_Create, atomic_load.
  cbv zeta. split; [| split; [| split]].
  - destruct (is_null outInterface); [exact Hrange |].
    destruct (_ || _); [apply UInt32_wrap_range | exact Hrange].
  - apply UInt32_wrap_range.
  - destruct (0 <? sDriverRefCount st);
      [apply UInt32_wrap_range | exact Hrange].
  - destruct (negb _); [exact Hrange | apply UInt32_wrap_range].
Qed.

(** ** Property queries *)

(** C1: for every object, address and qualifier, the byte count that
    [PlugIn_GetPropertyData] stores through [outDataSize] (and the number of
    bytes it puts in the buffer) is at most the size that
    [PlugIn_GetPropertyDataSize] stored through its [outDataSize] just
    before. *)
Theorem get_data_within_get_size
  (st : DriverState) (inDriver : LPVOID) (inObjectID : AudioObjectID)
  (pid : pid_t) (inAddress : option AudioObjectPropertyAddress)
  (inQualifierDataSize : UInt32) (inQualifierData : LPVOID)
  (outSize : LPVOID) (inDataSize : UInt32) (outDataSize outData : LPVOID)
  (status1 status2 : OSStatus) (size written : UInt32) (bytes : list Z)
  (st1 st2 : DriverState) :
  PlugIn_GetPropertyDataSize st inDriver inObjectID pid inAddress
    inQualifierDataSize inQualifierData outSize
  = (status1, Some size, st1) ->
  PlugIn_GetPropertyData st1 inDriver inObjectID pid inAddress
    inQualifierDataSize inQualifierData inDataSize outDataSize outData
  = (status2, Some written, bytes, st2) ->
  written <= size /\ Z.of_nat (length bytes) <= size.
Proof.
  unfold PlugIn_GetPropertyDataSize, PlugIn_GetPropertyData.
  destruct (is_null outSize); [discriminate |].
  destruct (is_null outDataSize || is_null outData); [discriminate |].
  intros Hsize Hdata.
  injection Hsize as _ <- _. injection Hdata as _ <- <- _.
  simpl. lia.
Qed.

Lemma get_data_within_get_size_witness :
  PlugIn_GetPropertyDataSize initial_state driver_ref device_id 0
    (Some sample_rate_address) 0 NULL (Foreign 1)
  = (kAudioHardwareUnknownPropertyError, Some 0, initial_state)
  /\ PlugIn_GetPropertyData initial_state driver_ref device_id 0
       (Some sample_rate_address) 0 NULL 8 (Foreign 1) (Foreign 2)
     = (kAudioHardwareUnknownPropertyError, Some 0, [], initial_state)
  /\ 0 <= 0 /\ Z.of_nat (length (@nil Z)) <= 0.
Proof.
  split; [reflexivity |]. split; [reflexivity |].
  apply (get_data_within_get_size initial_state driver_ref device_id 0
           (Some sample_rate_address) 0 NULL (Foreign 1) 8 (Foreign 1)
           (Foreign 2) kAudioHardwareUnknownPropertyError
           kAudioHardwareUnknownPropertyError 0 0 [] initial_state
           initial_state); reflexivity.
Defined.

(** C6, as the code has it: the size query for the sample rate of the
    device (and for any other property of any object) answers
    [kAudioHardwareUnknownPropertyError] and reports size 0, and the data
    query answers the same status, reports 0 bytes and stores nothing in the
    buffer, whenever the out-pointers are not null. *)
Theorem sample_rate_queries_unknown_property
  (st : DriverState) (inDriver : LPVOID) (inObjectID : AudioObjectID)
  (pid : pid_t) (inAddress : option AudioObjectPropertyAddress)
  (inQualifierDataSize : UInt32) (inQualifierData : LPVOID)
  (outSize : LPVOID) (inDataSize : UInt32) (outDataSize outData : LPVOID) :
  outSize <> NULL -> outDataSize <> NULL -> outData <> NULL ->
  PlugIn_GetPropertyDataSize st inDriver inObjectID pid inAddress
    inQualifierDataSize inQualifierData outSize
  = (kAudioHardwareUnknownPropertyError, Some 0, st)
  /\ PlugIn_GetPropertyData st inDriver inObjectID pid inAddress
       inQualifierDataSize inQualifierData inDataSize outDataSize outData
     = (kAudioHardwareUnknownPropertyError, Some 0, [], st).
Proof.
  intros Hsize Hdatasize Hdata.
  apply is_null_false in Hsize, Hdatasize, Hdata.
  unfold PlugIn_GetPropertyDataSize, PlugIn_GetPropertyData.
  rewrite Hsize, Hdatasize, Hdata. split; reflexivity.
Qed.

Lemma sample_rate_queries_unknown_property_witness :
  sample_rate_size_query
  = (kAudioHardwareUnknownPropertyError, Some 0, initial_state)
  /\ sample_rate_data_query
     = (kAudioHardwareUnknownPropertyError, Some 0, [], initial_state).
Proof.
  apply (sample_rate_queries_unknown_property initial_state driver_ref
           device_id 0 (Some sample_rate_address) 0 NULL (Foreign 1) 8
           (Foreign 1) (Foreign 2)); discriminate.
Defined.

(** C6, as the specification states it, fails: the size reported for the
    sample rate of the device is not 8, the call does not succeed, and the
    data query does not deliver 8 bytes. *)
Lemma sample_rate_size_is_not_8 :
  ~ (snd (fst sample_rate_size_query) = Some 8)
  /\ failed (fst (fst sample_rate_size_query))
  /\ ~ (snd (fst (fst sample_rate_data_query)) = Some 8)
  /\ length (snd (fst sample_rate_data_query)) = 0%nat.
Proof.
  repeat split; try discriminate; reflexivity.
Qed.

(** ** Device and client management *)



(** C4, as the code has it: [PlugIn_AddDeviceClient] answers
    [kAudioHardwareNoError] to every call, whether or not the client id was
    added before, and leaves the driver state as it was: it keeps no
    registry. *)
Theorem add_device_client_always_succeeds
  (st : DriverState) (inDriver : LPVOID) (inDeviceObjectID : AudioObjectID)
  (inClientInfo : AudioServerPlugInClientInfo) :
  PlugIn_AddDeviceClient st inDriver inDeviceObjectID inClientInfo
  = (kAudioHardwareNoError, st)
  /\ PlugIn_AddDeviceClient
       (snd (PlugIn_AddDeviceClient st inDriver inDeviceObjectID inClientInfo))
       inDriver inDeviceObjectID inClientInfo
     = (kAudioHardwareNoError, st).
Proof.
  split; reflexivity.
Qed.

(** C4, as the specification states it, fails: the second
    [PlugIn_AddDeviceClient] call for client id 5 does not fail. *)
Lemma add_twice_does_not_fail : ~ failed (fst add_twice).
Proof.
  intros Hfailed. apply Hfailed. reflexivity.
Qed.

(** ** The IO cycle *)

(** C7: [PlugIn_BeginIOOperation], [PlugIn_DoIOOperation] and
    [PlugIn_EndIOOperation] answer [kAudioHardwareNoError] on every input,
    and [PlugIn_DoIOOperation] hands both buffers back as it got them. *)
Theorem io_operations_never_fail
  (st : DriverState) (inDriver : LPVOID)
  (inDeviceObjectID inStreamObjectID : AudioObjectID)
  (inClientID inOperationID inIOBufferFrameSize : UInt32)
  (inIOCycleInfo : option AudioServerPlugInIOCycleInfo)
  (ioMainBuffer ioSecondaryBuffer : option (list Float32)) :
  PlugIn_BeginIOOperation st inDriver inDeviceObjectID inClientID
    inOperationID inIOBufferFrameSize inIOCycleInfo
  = (kAudioHardwareNoError, st)
  /\ PlugIn_DoIOOperation st inDriver inDeviceObjectID inStreamObjectID
       inClientID inOperationID inIOBufferFrameSize inIOCycleInfo
       ioMainBuffer ioSecondaryBuffer
     = (kAudioHardwareNoError, ioMainBuffer, ioSecondaryBuffer, st)
  /\ PlugIn_EndIOOperation st inDriver inDeviceObjectID inClientID
       inOperationID inIOBufferFrameSize inIOCycleInfo
     = (kAudioHardwareNoError, st)
  /\ ~ failed kAudioHardwareNoError.
Proof.
  repeat split. intros Hfailed. apply Hfailed. reflexivity.
Qed.

(** C2, as the code has it: after client A (id 1, pid 100) is added and its
    gain is set to 0.5, whatever the setter does to the driver state and
    whatever state the driver started in, [PlugIn_DoIOOperation] over the two
    frames [1.0, 1.0] answers [kAudioHardwareNoError] and hands back
    [1.0, 1.0]: a gain of exactly 1.0 on each frame, no ramp. *)
Theorem gain_scenario_passes_frames_through
  (set_gain : UInt32 -> Float32 -> DriverState -> DriverState)
  (st : DriverState) (inIOCycleInfo : option AudioServerPlugInIOCycleInfo)
  (ioSecondaryBuffer : option (list Float32)) :
  let st1 :=
    snd (PlugIn_AddDeviceClient st driver_ref device_id client_A) in
  let st2 := set_gain (mClientID client_A) 0.5%float st1 in
  let result :=
    PlugIn_DoIOOperation st2 driver_ref device_id stream_id
      (mClientID client_A) kAudioServerPlugInIOOperationWriteMix 2
      inIOCycleInfo (Some two_frames) ioSecondaryBuffer in
  result = (kAudioHardwareNoError, Some two_frames, ioSecondaryBuffer, st2)
  /\ zip_with effective_gain two_frames (main_buffer_of result)
     = [1.0%float; 1.0%float]
  /\ gain_scenario_gains set_gain = [1.0%float; 1.0%float].
Proof.
  cbv zeta. split; [reflexivity |]. split; reflexivity.
Qed.

(** C2, as the specification states it, fails: there is no way of setting
    the gain of client A to 0.5 after which the frames that one IO operation
    over [1.0, 1.0] hands back have gains strictly between 0.5 and 1.0. *)
Lemma no_gain_setter_makes_a_ramp :
  ~ (exists set_gain : UInt32 -> Float32 -> DriverState -> DriverState,
        Forall ramping (gain_scenario_gains set_gain)).
Proof.
  intros (set_gain & Hramp).
  change (gain_scenario_gains set_gain) with [1.0%float; 1.0%float] in Hramp.
  inversion Hramp as [| g gains [_ Hbelow] _].
  vm_compute in Hbelow. discriminate.
Qed.

(** ** Reference counting and the factory *)

(** C8: [PlugIn_QueryInterface] answers [E_POINTER] (and touches nothing)
    when [outInterface] is null. Otherwise, for the driver-interface UUID or
    the IUnknown UUID it adds one to the reference count (in [UInt32]
    arithmetic, so exactly one more below [UInt32_max]), stores the driver
    reference through [outInterface] and answers [S_OK]; for any other UUID
    it stores [NULL], answers [E_NOINTERFACE] and leaves the count alone. *)
Theorem PlugIn_QueryInterface_cases
  (st : DriverState) (inDriver : LPVOID) (inUUID : REFIID)
  (outInterface : LPVOID) :
  let result := PlugIn_QueryInterface st inDriver inUUID outInterface in
  (outInterface = NULL -> result = (E_POINTER, None, st))
  /\ (outInterface <> NULL ->
      inUUID = kDriverInterfaceUUID \/ inUUID = kIUnknownUUID ->
      result
      = (S_OK, Some (AddressOf gDriverInterfacePtr),
         set_sDriverRefCount st (UInt32_wrap (sDriverRefCount st + 1)))
      /\ load_global gDriverInterfacePtr = Some (AddressOf gDriverInterface)
      /\ (0 <= sDriverRefCount st < UInt32_max ->
          sDriverRefCount (snd result) = sDriverRefCount st + 1))
  /\ (outInterface <> NULL ->
      inUUID <> kDriverInterfaceUUID -> inUUID <> kIUnknownUUID ->
      result = (E_NOINTERFACE, Some NULL, st)
      /\ sDriverRefCount (snd result) = sDriverRefCount st).
Proof.
  unfold PlugIn_QueryInterface, CFUUIDCreateFromUUIDBytes. cbv zeta.
  split; [| split].
  - intros ->. reflexivity.
  - intros Hout Huuid. apply is_null_false in Hout. rewrite Hout.
    assert (CFEqual inUUID kDriverInterfaceUUID
            || CFEqual inUUID kIUnknownUUID = true) as ->.
    { apply orb_true_iff. destruct Huuid; [left | right]; now apply CFEqual_true. }
    split; [reflexivity |]. split; [reflexivity |].
    intros Hcount. simpl. apply UInt32_wrap_small.
    unfold UInt32_range, UInt32_max in *. lia.
  - intros Hout Hdriver Hunknown. apply is_null_false in Hout. rewrite Hout.
    apply CFEqual_false in Hdriver, Hunknown. rewrite Hdriver, Hunknown.
    split; reflexivity.
Qed.

Lemma PlugIn_QueryInterface_cases_witness :
  PlugIn_QueryInterface initial_state driver_ref kIUnknownUUID (Foreign 1)
  = (S_OK, Some (AddressOf gDriverInterfacePtr),
     set_sDriverRefCount initial_state 1)
  /\ PlugIn_QueryInterface initial_state driver_ref kAudioServerPlugInTypeUUID
       (Foreign 1)
     = (E_NOINTERFACE, Some NULL, initial_state)
  /\ PlugIn_QueryInterface initial_state driver_ref kIUnknownUUID NULL
     = (E_POINTER, None, initial_state).
Proof.
  split; [| split].
  - pose proof (PlugIn_QueryInterface_cases initial_state driver_ref
                  kIUnknownUUID (Foreign 1)) as (_ & Hknown & _).
    destruct Hknown as (Hresult & _); [discriminate | right; reflexivity |].
    exact Hresult.
  - pose proof (PlugIn_QueryInterface_cases initial_state driver_ref
                  kAudioServerPlugInTypeUUID (Foreign 1)) as (_ & _ & Hother).
    destruct Hother as (Hresult & _); [discriminate .. |].
    exact Hresult.
  - pose proof (PlugIn_QueryInterface_cases initial_state driver_ref
                  kIUnknownUUID NULL) as (Hnull & _).
    exact (Hnull eq_refl).
Defined.

(** A call of [PlugIn_Release] that runs alone, on a reference count within
    [UInt32], takes one off a positive count and returns the new count; on a
    count of zero it leaves zero and returns zero. Either way the count
    stays within [UInt32], never grows, and is the value returned. *)
Theorem PlugIn_Release_no_underflow (st : DriverState) (inDriver : LPVOID) :
  UInt32_range (sDriverRefCount st) ->
  let result := PlugIn_Release st inDriver in
  (0 < sDriverRefCount st ->
   result
   = (sDriverRefCount st - 1,
      set_sDriverRefCount st (sDriverRefCount st - 1)))
  /\ (sDriverRefCount st = 0 -> result = (0, st))
  /\ UInt32_range (sDriverRefCount (snd result))
  /\ sDriverRefCount (snd result) <= sDriverRefCount st
  /\ fst result = sDriverRefCount (snd result).
Proof.
  intros Hrange. unfold PlugIn_Release, Release_load, Release_finish, atomic_load,
    atomic_fetch_sub.
  cbv zeta. simpl fst. simpl snd.
  destruct (Z.ltb_spec 0 (sDriverRefCount st)) as [Hpos | Hzero].
  - assert (UInt32_wrap (sDriverRefCount st - 1) = sDriverRefCount st - 1)
      as Hwrap.
    { apply UInt32_wrap_small. unfold UInt32_range in *. lia. }
    rewrite Hwrap. simpl. unfold UInt32_range in *.
    repeat split; try lia.
  - assert (sDriverRefCount st = 0) as Hcount
      by (unfold UInt32_range in Hrange; lia).
    simpl. unfold UInt32_range in *.
    repeat split; lia.
Qed.

Lemma PlugIn_Release_no_underflow_witness :
  UInt32_range (sDriverRefCount initial_state)
  /\ PlugIn_Release initial_state driver_ref = (0, initial_state)
  /\ PlugIn_Release (set_sDriverRefCount initial_state 2) driver_ref
     = (1, set_sDriverRefCount initial_state 1).
Proof.
  assert (UInt32_range 0) as Hzero by (unfold UInt32_range; vm_compute; split; [discriminate | reflexivity]).
  assert (UInt32_range 2) as Htwo by (unfold UInt32_range; vm_compute; split; [discriminate | reflexivity]).
  split; [exact Hzero |]. split.
  - pose proof (PlugIn_Release_no_underflow initial_state driver_ref Hzero)
      as (_ & Hstay & _).
    exact (Hstay eq_refl).
  - pose proof (PlugIn_Release_no_underflow
                  (set_sDriverRefCount initial_state 2) driver_ref Htwo)
      as (Hdown & _).
    apply Hdown. reflexivity.
Defined.

(** C10: [AppFadersDriver_Create] returns [NULL] (and leaves the count
    alone) whenever the requested type UUID differs from
    [kAudioServerPlugInTypeUUID]; for that UUID it sets the reference count
    to exactly 1 and returns the driver reference, which is not null and
    points to the pointer to the driver interface. *)
Theorem AppFadersDriver_Create_cases
  (st : DriverState) (allocator : LPVOID) (requestedTypeUUID : CFUUIDRef) :
  let result := AppFadersDriver_Create st allocator requestedTypeUUID in
  (requestedTypeUUID <> kAudioServerPlugInTypeUUID -> result = (NULL, st))
  /\ (requestedTypeUUID = kAudioServerPlugInTypeUUID ->
      result = (AddressOf gDriverInterfacePtr, set_sDriverRefCount st 1)
      /\ sDriverRefCount (snd result) = 1
      /\ fst result <> NULL
      /\ load_global gDriverInterfacePtr = Some (AddressOf gDriverInterface)).
Proof.
  unfold AppFadersDriver_Create. cbv zeta. split.
  - intros Hother. apply CFEqual_false in Hother. rewrite Hother. reflexivity.
  - intros ->.
    assert (CFEqual kAudioServerPlugInTypeUUID kAudioServerPlugInTypeUUID
            = true) as -> by now apply CFEqual_true.
    simpl. repeat split. discriminate.
Qed.

Lemma AppFadersDriver_Create_cases_witness :
  AppFadersDriver_Create initial_state NULL kAudioServerPlugInTypeUUID
  = (AddressOf gDriverInterfacePtr, set_sDriverRefCount initial_state 1)
  /\ AppFadersDriver_Create (set_sDriverRefCount initial_state 7) NULL
       kIUnknownUUID
     = (NULL, set_sDriverRefCount initial_state 7).
Proof.
  split.
  - pose proof (AppFadersDriver_Create_cases initial_state NULL
                  kAudioServerPlugInTypeUUID) as (_ & Hsame).
    destruct (Hsame eq_refl) as (Hresult & _). exact Hresult.
  - pose proof (AppFadersDriver_Create_cases
                  (set_sDriverRefCount initial_state 7) NULL kIUnknownUUID)
      as (Hother & _).
    apply Hother. discriminate.
Defined.

(** ** The Gain Table of the specification *)

(** The core runs the scenarios of section 8 as the specification tells
    them: a second [add] of client 5 is refused and the registry keeps one
    entry, and one ramp step after [set_gain] leaves the gain of client 1
    between the target and unity. *)
Example core_add_twice :
  let st1 := snd (Core.add 5 100 Core.empty) in
  Core.add 5 100 st1 = (Some Core.DuplicateClient, st1)
  /\ size (Core.registry st1) = 1%nat.
Proof.
  split; [reflexivity |]. simpl. apply map_size_singleton.
Qed.

Example core_ramp_after_set_gain :
  Core.current_gain 1
    (Core.advance 0.125%float
       (Core.set_gain 1 0.5%float (snd (Core.add 1 100 Core.empty))))
  = 0.875%float.
Proof.
  vm_compute. reflexivity.
Qed.

Lemma step_keeps_gain_keys_registered
  (ramp_step : Float32) (st st' : Core.CoreState) :
  Core.step ramp_step st st' ->
  Core.gain_keys_registered st -> Core.gain_keys_registered st'.
Proof.
  unfold Core.gain_keys_registered.
  intros Hstep Hkeys. destruct Hstep as [c pid st | c st | c g st | st].
  - unfold Core.add. destruct (Core.registry st !! c) eqn:Hc; simpl.
    + exact Hkeys.
    + intros c'. destruct (decide (c = c')) as [<- | Hne].
      * rewrite lookup_insert_eq. discriminate.
      * rewrite lookup_insert_ne by exact Hne. apply Hkeys.
  - unfold Core.remove. destruct (Core.registry st !! c) eqn:Hc; simpl.
    + intros c'. destruct (decide (c = c')) as [<- | Hne].
      * intros _. apply lookup_delete_eq.
      * rewrite !lookup_delete_ne by exact Hne. apply Hkeys.
    + exact Hkeys.
  - unfold Core.set_gain. destruct (Core.registry st !! c) eqn:Hc; simpl.
    + intros c'. destruct (decide (c = c')) as [<- | Hne].
      * rewrite Hc. discriminate.
      * rewrite lookup_insert_ne by exact Hne. apply Hkeys.
    + exact Hkeys.
  - unfold Core.advance. simpl. intros c' Hc'.
    rewrite lookup_fmap, (Hkeys c' Hc'). reflexivity.
Qed.

Lemma reachable_gain_keys_registered
  (ramp_step : Float32) (st : Core.CoreState) :
  Core.reachable ramp_step st -> Core.gain_keys_registered st.
Proof.
  induction 1 as [| st st' _ IH Hstep].
  - intros c _. apply lookup_empty.
  - exact (step_keeps_gain_keys_registered ramp_step st st' Hstep IH).
Qed.

(** C3: in every state of the core that the host can reach by adding and
    removing clients, setting gains and running callbacks, a client id that
    is not in the Client Registry has [current_gain] exactly 1.0. *)
Theorem current_gain_of_unregistered_client
  (ramp_step : Float32) (st : Core.CoreState) (c : Z) :
  Core.reachable ramp_step st ->
  Core.lookup c st = None ->
  Core.current_gain c st = 1.0%float.
Proof.
  intros Hreach Hc. unfold Core.current_gain.
  rewrite (reachable_gain_keys_registered ramp_step st Hreach c Hc).
  reflexivity.
Qed.

Lemma current_gain_of_unregistered_client_witness :
  Core.lookup 2 (Core.set_gain 1 0.5%float (snd (Core.add 1 100 Core.empty)))
  = None
  /\ Core.current_gain 2
       (Core.set_gain 1 0.5%float (snd (Core.add 1 100 Core.empty)))
     = 1.0%float.
Proof.
  assert (Core.lookup 2
            (Core.set_gain 1 0.5%float (snd (Core.add 1 100 Core.empty)))
          = None) as Hlookup by (vm_compute; reflexivity).
  split; [exact Hlookup |].
  apply (current_gain_of_unregistered_client 0.125%float); [| exact Hlookup].
  apply (Core.reachable_step 0.125%float (snd (Core.add 1 100 Core.empty))).
  - apply (Core.reachable_step 0.125%float Core.empty).
    + apply Core.reachable_empty.
    + apply Core.step_add.
  - apply Core.step_set_gain.
Defined.

(** * Further properties of the entry points *)

(** ** Helper facts *)

Lemma DriverState_eq (a b : DriverState) :
  sDriverRefCount a = sDriverRefCount b -> sHost a = sHost b -> a = b.
Proof. destruct a, b. simpl. intros -> ->. reflexivity. Qed.

Lemma UInt32_wrap_modulus : UInt32_wrap (UInt32_max + 1) = 0.
Proof. reflexivity. Qed.

Lemma status_codes_distinct :
  S_OK <> E_POINTER /\ S_OK <> E_NOINTERFACE /\ E_POINTER <> E_NOINTERFACE
  /\ failed kAudioHardwareUnknownPropertyError
  /\ failed kAudioHardwareIllegalOperationError
  /\ failed kAudioHardwareBadObjectError
  /\ kAudioHardwareUnknownPropertyError <> kAudioHardwareIllegalOperationError.
Proof. repeat split; discriminate. Qed.

(** One [PlugIn_AddRef] on a count within [UInt32]. *)
Lemma AddRef_state (st : DriverState) (inDriver : LPVOID) :
  PlugIn_AddRef st inDriver
  = (UInt32_wrap (sDriverRefCount st + 1),
     set_sDriverRefCount st (UInt32_wrap (sDriverRefCount st + 1))).
Proof. reflexivity. Qed.

(** One [PlugIn_Release] on a count within [UInt32]: the count goes down to
    [Z.max 0 (count - 1)]. *)
Lemma Release_state (st : DriverState) (inDriver : LPVOID) :
  UInt32_range (sDriverRefCount st) ->
  PlugIn_Release st inDriver
  = (Z.max 0 (sDriverRefCount st - 1),
     set_sDriverRefCount st (Z.max 0 (sDriverRefCount st - 1))).
Proof.
  intros Hrange. unfold PlugIn_Release, Release_load, Release_finish, atomic_load,
    atomic_fetch_sub.
  cbv zeta. simpl fst. simpl snd.
  destruct (Z.ltb_spec 0 (sDriverRefCount st)) as [Hpos | Hzero].
  - rewrite UInt32_wrap_small by (unfold UInt32_range in *; lia).
    rewrite Z.max_r by lia. reflexivity.
  - assert (sDriverRefCount st = 0) as Hcount
      by (unfold UInt32_range in *; lia).
    rewrite Z.max_l by lia. f_equal.
    apply DriverState_eq; simpl; [exact Hcount | reflexivity].
Qed.

Lemma Release_iter_state (n : nat) (st : DriverState) (inDriver : LPVOID) :
  UInt32_range (sDriverRefCount st) ->
  Nat.iter n (fun s => snd (PlugIn_Release s inDriver)) st
  = set_sDriverRefCount st (Z.max 0 (sDriverRefCount st - Z.of_nat n)).
Proof.
  intros Hrange. induction n as [| n IH].
  - simpl. rewrite Z.sub_0_r, Z.max_r by (unfold UInt32_range in *; lia).
    apply DriverState_eq; reflexivity.
  - change (Nat.iter (S n) (fun s => snd (PlugIn_Release s inDriver)) st)
      with (snd (PlugIn_Release
                   (Nat.iter n (fun s => snd (PlugIn_Release s inDriver)) st)
                   inDriver)).
    rewrite IH, Release_state by (simpl; unfold UInt32_range in *; lia).
    simpl. apply DriverState_eq; simpl; [lia | reflexivity].
Qed.

Lemma AddRef_iter_state (n : nat) (st : DriverState) (inDriver : LPVOID) :
  UInt32_range (sDriverRefCount st) ->
  sDriverRefCount st + Z.of_nat n <= UInt32_max ->
  Nat.iter n (fun s => snd (PlugIn_AddRef s inDriver)) st
  = set_sDriverRefCount st (sDriverRefCount st + Z.of_nat n).
Proof.
  intros Hrange. induction n as [| n IH]; intros Hroom.
  - simpl. rewrite Z.add_0_r. apply DriverState_eq; reflexivity.
  - change (Nat.iter (S n) (fun s => snd (PlugIn_AddRef s inDriver)) st)
      with (snd (PlugIn_AddRef
                   (Nat.iter n (fun s => snd (PlugIn_AddRef s inDriver)) st)
                   inDriver)).
    rewrite IH by lia. rewrite AddRef_state. simpl.
    rewrite UInt32_wrap_small
      by (unfold UInt32_range, UInt32_max in *; lia).
    apply DriverState_eq; simpl; [lia | reflexivity].
Qed.

(** ** Reference counting *)

(** X1: on a count within [UInt32], [PlugIn_AddRef] returns the count it
    stores; below [0xFFFFFFFF] that is the old count plus one, and at
    [0xFFFFFFFF] the count wraps to 0 (there is no guard, unlike in
    [PlugIn_Release]). The host is left alone. *)
Theorem PlugIn_AddRef_counts (st : DriverState) (inDriver : LPVOID) :
  UInt32_range (sDriverRefCount st) ->
  let result := PlugIn_AddRef st inDriver in
  (sDriverRefCount st < UInt32_max ->
   result
   = (sDriverRefCount st + 1,
      set_sDriverRefCount st (sDriverRefCount st + 1)))
  /\ (sDriverRefCount st = UInt32_max ->
      result = (0, set_sDriverRefCount st 0))
  /\ fst result = sDriverRefCount (snd result)
  /\ sHost (snd result) = sHost st.
Proof.
  intros Hrange. rewrite AddRef_state. cbv zeta.
  split; [| split; [| split]]; try reflexivity.
  - intros Hroom.
    rewrite UInt32_wrap_small
      by (unfold UInt32_range, UInt32_max in *; lia).
    reflexivity.
  - intros ->. rewrite UInt32_wrap_modulus. reflexivity.
Qed.

Lemma PlugIn_AddRef_counts_witness :
  PlugIn_AddRef initial_state driver_ref
  = (1, set_sDriverRefCount initial_state 1)
  /\ PlugIn_AddRef (set_sDriverRefCount initial_state UInt32_max) driver_ref
     = (0, set_sDriverRefCount initial_state 0).
Proof.
  assert (UInt32_range 0) as Hzero by (vm_compute; split; [discriminate | reflexivity]).
  assert (UInt32_range UInt32_max) as Hmax
    by (vm_compute; split; [discriminate | reflexivity]).
  split.
  - pose proof (PlugIn_AddRef_counts initial_state driver_ref Hzero)
      as (Hup & _).
    apply Hup. reflexivity.
  - pose proof (PlugIn_AddRef_counts
                  (set_sDriverRefCount initial_state UInt32_max) driver_ref
                  Hmax) as (_ & Hwrap & _).
    apply Hwrap. reflexivity.
Defined.

(** X2: a [PlugIn_Release] right after a [PlugIn_AddRef] gives the state
    back and returns the count held before the pair, for every count below
    [0xFFFFFFFF]; at [0xFFFFFFFF] the AddRef has wrapped and the Release
    finds and leaves 0. *)
Theorem AddRef_then_Release_restores
  (st : DriverState) (inDriver inDriver' : LPVOID) :
  UInt32_range (sDriverRefCount st) ->
  (sDriverRefCount st < UInt32_max ->
   PlugIn_Release (snd (PlugIn_AddRef st inDriver)) inDriver'
   = (sDriverRefCount st, st))
  /\ (sDriverRefCount st = UInt32_max ->
      PlugIn_Release (snd (PlugIn_AddRef st inDriver)) inDriver'
      = (0, set_sDriverRefCount st 0)).
Proof.
  intros Hrange. rewrite AddRef_state. simpl snd. split.
  - intros Hroom.
    rewrite UInt32_wrap_small
      by (unfold UInt32_range, UInt32_max in *; lia).
    rewrite Release_state
      by (simpl; unfold UInt32_range, UInt32_max in *; lia).
    simpl. replace (Z.max 0 (sDriverRefCount st + 1 - 1))
      with (sDriverRefCount st) by (unfold UInt32_range in *; lia).
    f_equal. apply DriverState_eq; reflexivity.
  - intros Hmax. rewrite Hmax, UInt32_wrap_modulus.
    rewrite Release_state by (simpl; vm_compute; split; [discriminate | reflexivity]).
    simpl. f_equal.
Qed.

Lemma AddRef_then_Release_restores_witness :
  PlugIn_Release (snd (PlugIn_AddRef (set_sDriverRefCount initial_state 3)
                         driver_ref)) driver_ref
  = (3, set_sDriverRefCount initial_state 3).
Proof.
  assert (UInt32_range 3) as Hthree
    by (vm_compute; split; [discriminate | reflexivity]).
  pose proof (AddRef_then_Release_restores
                (set_sDriverRefCount initial_state 3) driver_ref driver_ref
                Hthree) as (Hback & _).
  apply Hback. reflexivity.
Defined.

(** X3: [n] calls of [PlugIn_Release] on a count [c] within [UInt32] leave
    the count [max 0 (c - n)] and the host untouched: the count stops at 0
    however many releases follow. *)
Theorem Release_saturates_at_zero
  (n : nat) (st : DriverState) (inDriver : LPVOID) :
  UInt32_range (sDriverRefCount st) ->
  let st' := Nat.iter n (fun s => snd (PlugIn_Release s inDriver)) st in
  sDriverRefCount st' = Z.max 0 (sDriverRefCount st - Z.of_nat n)
  /\ sHost st' = sHost st
  /\ (sDriverRefCount st <= Z.of_nat n ->
      PlugIn_Release st' inDriver = (0, st')).
Proof.
  intros Hrange. cbv zeta. rewrite Release_iter_state by exact Hrange.
  simpl. split; [reflexivity |]. split; [reflexivity |].
  intros Hall. rewrite Release_state by (simpl; unfold UInt32_range in *; lia).
  simpl. replace (Z.max 0 (sDriverRefCount st - Z.of_nat n)) with 0 by lia.
  reflexivity.
Qed.

Lemma Release_saturates_at_zero_witness :
  sDriverRefCount
    (Nat.iter 5 (fun s => snd (PlugIn_Release s driver_ref))
       (set_sDriverRefCount initial_state 2))
  = 0.
Proof.
  assert (UInt32_range 2) as Htwo
    by (vm_compute; split; [discriminate | reflexivity]).
  pose proof (Release_saturates_at_zero 5
                (set_sDriverRefCount initial_state 2) driver_ref Htwo)
    as (Hcount & _).
  exact Hcount.
Defined.

(** X4: [n] calls of [PlugIn_AddRef] followed by [n] calls of
    [PlugIn_Release] give the state back, as long as the count has room for
    the [n] references below [0xFFFFFFFF]. *)
Theorem AddRefs_then_Releases_restore
  (n : nat) (st : DriverState) (inDriver : LPVOID) :
  UInt32_range (sDriverRefCount st) ->
  sDriverRefCount st + Z.of_nat n <= UInt32_max ->
  Nat.iter n (fun s => snd (PlugIn_Release s inDriver))
    (Nat.iter n (fun s => snd (PlugIn_AddRef s inDriver)) st)
  = st.
Proof.
  intros Hrange Hroom.
  rewrite AddRef_iter_state by assumption.
  rewrite Release_iter_state
    by (simpl; unfold UInt32_range, UInt32_max in *; lia).
  apply DriverState_eq; simpl; [| reflexivity].
  unfold UInt32_range in *. lia.
Qed.

Lemma AddRefs_then_Releases_restore_witness :
  Nat.iter 4 (fun s => snd (PlugIn_Release s driver_ref))
    (Nat.iter 4 (fun s => snd (PlugIn_AddRef s driver_ref)) initial_state)
  = initial_state.
Proof.
  apply (AddRefs_then_Releases_restore 4 initial_state driver_ref).
  - vm_compute. split; [discriminate | reflexivity].
  - vm_compute. discriminate.
Defined.

(** ** Interface queries and the factory *)

Lemma QueryInterface_known (st : DriverState) (inDriver : LPVOID)
  (inUUID : REFIID) (outInterface : LPVOID) :
  outInterface <> NULL ->
  inUUID = kDriverInterfaceUUID \/ inUUID = kIUnknownUUID ->
  PlugIn_QueryInterface st inDriver inUUID outInterface
  = (S_OK, Some (AddressOf gDriverInterfacePtr),
     set_sDriverRefCount st (UInt32_wrap (sDriverRefCount st + 1))).
Proof.
  intros Hout Huuid. unfold PlugIn_QueryInterface, CFUUIDCreateFromUUIDBytes.
  apply is_null_false in Hout. rewrite Hout. cbv zeta.
  assert (CFEqual inUUID kDriverInterfaceUUID
          || CFEqual inUUID kIUnknownUUID = true) as ->.
  { apply orb_true_iff. destruct Huuid; [left | right]; now apply CFEqual_true. }
  reflexivity.
Qed.

Lemma QueryInterface_unknown (st : DriverState) (inDriver : LPVOID)
  (inUUID : REFIID) (outInterface : LPVOID) :
  outInterface <> NULL ->
  ~ (inUUID = kDriverInterfaceUUID \/ inUUID = kIUnknownUUID) ->
  PlugIn_QueryInterface st inDriver inUUID outInterface
  = (E_NOINTERFACE, Some NULL, st).
Proof.
  intros Hout Huuid. unfold PlugIn_QueryInterface, CFUUIDCreateFromUUIDBytes.
  apply is_null_false in Hout. rewrite Hout. cbv zeta.
  assert (CFEqual inUUID kDriverInterfaceUUID = false) as ->
    by (apply CFEqual_false; tauto).
  assert (CFEqual inUUID kIUnknownUUID = false) as ->
    by (apply CFEqual_false; tauto).
  reflexivity.
Qed.

(** X5: a [PlugIn_QueryInterface] that succeeds leaves the state that one
    [PlugIn_AddRef] leaves, so one [PlugIn_Release] pays it back: for a count
    below [0xFFFFFFFF] the release returns the old count and the old
    state. *)
Theorem QueryInterface_takes_one_reference
  (st : DriverState) (inDriver inDriver' : LPVOID) (inUUID : REFIID)
  (outInterface : LPVOID) :
  outInterface <> NULL ->
  inUUID = kDriverInterfaceUUID \/ inUUID = kIUnknownUUID ->
  let st' := snd (PlugIn_QueryInterface st inDriver inUUID outInterface) in
  st' = snd (PlugIn_AddRef st inDriver')
  /\ (0 <= sDriverRefCount st < UInt32_max ->
      PlugIn_Release st' inDriver' = (sDriverRefCount st, st)).
Proof.
  intros Hout Huuid. cbv zeta.
  rewrite QueryInterface_known, AddRef_state by assumption. simpl snd.
  split; [reflexivity |]. intros Hroom.
  rewrite UInt32_wrap_small by (unfold UInt32_range, UInt32_max in *; lia).
  rewrite Release_state
    by (simpl; unfold UInt32_range, UInt32_max in *; lia).
  simpl. replace (Z.max 0 (sDriverRefCount st + 1 - 1))
    with (sDriverRefCount st) by lia.
  f_equal. apply DriverState_eq; reflexivity.
Qed.

Lemma QueryInterface_takes_one_reference_witness :
  snd (PlugIn_QueryInterface initial_state driver_ref kDriverInterfaceUUID
         (Foreign 1))
  = snd (PlugIn_AddRef initial_state driver_ref)
  /\ PlugIn_Release
       (snd (PlugIn_QueryInterface initial_state driver_ref
               kDriverInterfaceUUID (Foreign 1))) driver_ref
     = (0, initial_state).
Proof.
  assert (Foreign 1 <> NULL) as Hout by discriminate.
  pose proof (QueryInterface_takes_one_reference initial_state driver_ref
                driver_ref kDriverInterfaceUUID (Foreign 1) Hout
                (or_introl eq_refl)) as (Hsame & Hback).
  split; [exact Hsame |]. apply Hback. vm_compute.
  split; [discriminate | reflexivity].
Defined.

(** X6: the answer of [PlugIn_QueryInterface] tells the cases apart. It is
    [S_OK] exactly when [outInterface] is not null and the UUID is one of
    the two supported ones, and [E_POINTER] exactly when [outInterface] is
    null; a pointer other than [NULL] is stored exactly when the answer is
    [S_OK]; and only an [S_OK] call can change the state. *)
Theorem QueryInterface_answer_tells_cases
  (st : DriverState) (inDriver : LPVOID) (inUUID : REFIID)
  (outInterface : LPVOID) :
  let result := PlugIn_QueryInterface st inDriver inUUID outInterface in
  (fst (fst result) = S_OK <->
   outInterface <> NULL
   /\ (inUUID = kDriverInterfaceUUID \/ inUUID = kIUnknownUUID))
  /\ (fst (fst result) = E_POINTER <-> outInterface = NULL)
  /\ (fst (fst result) = S_OK <->
      exists p, snd (fst result) = Some p /\ p <> NULL)
  /\ (fst (fst result) <> S_OK -> snd result = st).
Proof.
  cbv zeta. destruct status_codes_distinct as (Hp & Hn & Hpn & _).
  destruct (is_null outInterface) eqn:Hout;
    [apply is_null_true in Hout; subst outInterface
    | apply is_null_false in Hout].
  - simpl. repeat split; try congruence; try tauto.
    intros (p & Hstored & _). discriminate.
  - destruct (decide (inUUID = kDriverInterfaceUUID
                      \/ inUUID = kIUnknownUUID)) as [Huuid | Huuid].
    + rewrite QueryInterface_known by assumption. simpl.
      repeat split; try congruence; try tauto.
      intros _. exists (AddressOf gDriverInterfacePtr).
      split; [reflexivity | discriminate].
    + rewrite QueryInterface_unknown by assumption. simpl.
      repeat split; try congruence; try tauto.
      intros (p & Hstored & Hp'). congruence.
Qed.

Lemma QueryInterface_answer_tells_cases_witness :
  fst (fst (PlugIn_QueryInterface initial_state driver_ref kIUnknownUUID
              (Foreign 1))) = S_OK.
Proof.
  pose proof (QueryInterface_answer_tells_cases initial_state driver_ref
                kIUnknownUUID (Foreign 1)) as (Hok & _).
  apply Hok. split; [discriminate | right; reflexivity].
Defined.

(** X7: a successful [AppFadersDriver_Create] forgets the count it finds:
    called again after an AddRef (or right away) it leaves the same state as
    the first call, count 1. It never touches the recorded host. One
    [PlugIn_Release] after it brings the count to 0, and a second Release
    leaves it there. *)
Theorem AppFadersDriver_Create_starts_over
  (st : DriverState) (allocator allocator' inDriver : LPVOID) :
  let st1 := snd (AppFadersDriver_Create st allocator
                    kAudioServerPlugInTypeUUID) in
  snd (AppFadersDriver_Create st1 allocator' kAudioServerPlugInTypeUUID) = st1
  /\ snd (AppFadersDriver_Create (snd (PlugIn_AddRef st1 inDriver)) allocator'
            kAudioServerPlugInTypeUUID) = st1
  /\ sHost st1 = sHost st
  /\ PlugIn_Release st1 inDriver = (0, set_sDriverRefCount st 0)
  /\ PlugIn_Release (snd (PlugIn_Release st1 inDriver)) inDriver
     = (0, set_sDriverRefCount st 0).
Proof.
  cbv zeta. unfold AppFadersDriver_Create. cbv zeta.
  assert (CFEqual kAudioServerPlugInTypeUUID kAudioServerPlugInTypeUUID
          = true) as -> by now apply CFEqual_true.
  simpl. repeat split.
Qed.

(** X8: [PlugIn_Initialize] refuses a null host with
    [kAudioHardwareBadObjectError], a failure, and leaves the state as it
    was, so a host recorded earlier survives; given a host it records it,
    answers [kAudioHardwareNoError] and leaves the reference count alone. *)
Theorem PlugIn_Initialize_cases
  (st : DriverState) (inDriver inHost : LPVOID) :
  let result := PlugIn_Initialize st inDriver inHost in
  (inHost = NULL ->
   result = (kAudioHardwareBadObjectError, st) /\ failed (fst result))
  /\ (inHost <> NULL ->
      result = (kAudioHardwareNoError, set_sHost st inHost)
      /\ sHost (snd result) = inHost)
  /\ sDriverRefCount (snd result) = sDriverRefCount st
  /\ (sHost st <> NULL -> sHost (snd result) <> NULL).
Proof.
  cbv zeta. unfold PlugIn_Initialize.
  destruct inHost as [| g | a]; simpl; repeat split; try congruence;
    try discriminate; try tauto.
Qed.

Lemma PlugIn_Initialize_cases_witness :
  PlugIn_Initialize (set_sHost initial_state (Foreign 7)) driver_ref NULL
  = (kAudioHardwareBadObjectError, set_sHost initial_state (Foreign 7))
  /\ PlugIn_Initialize initial_state driver_ref (Foreign 7)
     = (kAudioHardwareNoError, set_sHost initial_state (Foreign 7)).
Proof.
  split.
  - pose proof (PlugIn_Initialize_cases (set_sHost initial_state (Foreign 7))
                  driver_ref NULL) as (Hnull & _).
    destruct (Hnull eq_refl) as (Hresult & _). exact Hresult.
  - pose proof (PlugIn_Initialize_cases initial_state driver_ref (Foreign 7))
      as (_ & Hhost & _).
    destruct Hhost as (Hresult & _); [discriminate |]. exact Hresult.
Defined.

(** X9: whatever pointer [AppFadersDriver_Create] returns or
    [PlugIn_QueryInterface] stores is either [NULL] or a driver reference
    behind which the host finds the table of the [PlugIn_] functions; it is
    a driver reference exactly when the call succeeds. *)
Theorem handed_out_pointers_are_driver_references
  (st : DriverState) (allocator inDriver : LPVOID)
  (requestedTypeUUID : CFUUIDRef) (inUUID : REFIID) (outInterface : LPVOID) :
  let created := fst (AppFadersDriver_Create st allocator requestedTypeUUID) in
  let queried := PlugIn_QueryInterface st inDriver inUUID outInterface in
  (created = NULL \/ driver_interface created = Some gDriverInterface_table)
  /\ (requestedTypeUUID = kAudioServerPlugInTypeUUID <->
      driver_interface created = Some gDriverInterface_table)
  /\ (forall p, snd (fst queried) = Some p ->
      p = NULL \/ driver_interface p = Some gDriverInterface_table)
  /\ (fst (fst queried) = S_OK <->
      exists p, snd (fst queried) = Some p
                /\ driver_interface p = Some gDriverInterface_table).
Proof.
  cbv zeta. destruct status_codes_distinct as (Hp & Hn & Hpn & _).
  split; [| split; [| split]].
  - unfold AppFadersDriver_Create. cbv zeta.
    destruct (negb _); simpl; [left | right]; reflexivity.
  - unfold AppFadersDriver_Create. cbv zeta.
    destruct (CFEqual requestedTypeUUID kAudioServerPlugInTypeUUID) eqn:Heq;
      simpl.
    + apply CFEqual_true in Heq. tauto.
    + apply CFEqual_false in Heq. split; [tauto | discriminate].
  - intros p. unfold PlugIn_QueryInterface. cbv zeta.
    destruct (is_null outInterface); [discriminate |].
    destruct (_ || _); simpl; intros [= <-]; [right | left]; reflexivity.
  - unfold PlugIn_QueryInterface. cbv zeta.
    destruct (is_null outInterface); simpl.
    + split; [intros Hok; symmetry in Hok; contradiction |].
      intros (p & Hstored & _). discriminate.
    + destruct (_ || _); simpl.
      * split; [| reflexivity]. intros _.
        exists (AddressOf gDriverInterfacePtr). split; reflexivity.
      * split; [intros Hok; symmetry in Hok; contradiction |].
        intros (p & [= <-] & Htable). discriminate.
Qed.

(** ** Sequences of host calls *)

Lemma perform_frame (driver : LPVOID) (c : HostCall) (st : DriverState) :
  writes_state c = false ->
  snd (perform gDriverInterface_table driver c st) = st.
Proof.
  destruct c; simpl; intros Hwrites; try discriminate; try reflexivity.
  - unfold PlugIn_IsPropertySettable. destruct (is_null _); reflexivity.
  - unfold PlugIn_GetPropertyDataSize. destruct (is_null _); reflexivity.
  - unfold PlugIn_GetPropertyData. destruct (_ || _); reflexivity.
Qed.

Lemma perform_count_range (driver : LPVOID) (c : HostCall) (st : DriverState) :
  UInt32_range (sDriverRefCount st) ->
  UInt32_range (sDriverRefCount (snd (perform gDriverInterface_table driver c st))).
Proof.
  intros Hrange. destruct (writes_state c) eqn:Hwrites.
  - destruct c; try discriminate; simpl.
    + unfold PlugIn_QueryInterface. cbv zeta.
      destruct (is_null _); [exact Hrange |].
      destruct (_ || _); [apply UInt32_wrap_range | exact Hrange].
    + apply UInt32_wrap_range.
    + unfold PlugIn_Release, Release_load, Release_finish, atomic_load.
      cbv zeta.
      destruct (0 <? _); [apply UInt32_wrap_range | exact Hrange].
    + unfold PlugIn_Initialize. destruct (is_null _); exact Hrange.
  - rewrite perform_frame by exact Hwrites. exact Hrange.
Qed.

Lemma perform_host (driver : LPVOID) (c : HostCall) (st : DriverState) :
  sHost (snd (perform gDriverInterface_table driver c st))
  = host_after [c] (sHost st).
Proof.
  destruct (writes_state c) eqn:Hwrites.
  - destruct c; try discriminate; simpl.
    + unfold PlugIn_QueryInterface. cbv zeta.
      destruct (is_null _); [reflexivity |].
      destruct (_ || _); reflexivity.
    + reflexivity.
    + unfold PlugIn_Release, Release_load, Release_finish. cbv zeta.
      destruct (0 <? _); reflexivity.
    + unfold PlugIn_Initialize. destruct (is_null _); reflexivity.
  - rewrite perform_frame by exact Hwrites.
    destruct c; try discriminate; reflexivity.
Qed.

Lemma host_after_cons (c : HostCall) (calls : list HostCall) (host : LPVOID) :
  host_after (c :: calls) host = host_after calls (host_after [c] host).
Proof. destruct c; reflexivity. Qed.

Lemma host_after_not_null (calls : list HostCall) (host : LPVOID) :
  host <> NULL -> host_after calls host <> NULL.
Proof.
  revert host. induction calls as [| c calls IH]; intros host Hhost.
  - exact Hhost.
  - rewrite host_after_cons. apply IH.
    destruct c; simpl; try exact Hhost.
    destruct inHost; simpl; [exact Hhost | discriminate | discriminate].
Qed.

Lemma host_after_origin (calls : list HostCall) (host : LPVOID) :
  host_after calls host = host
  \/ exists h, In (CallInitialize h) calls /\ h <> NULL
               /\ host_after calls host = h.
Proof.
  revert host. induction calls as [| c calls IH]; intros host.
  - left. reflexivity.
  - rewrite host_after_cons.
    destruct (IH (host_after [c] host)) as [Hsame | (h & Hin & Hh & Hlast)].
    + rewrite Hsame. destruct c; simpl; try (left; reflexivity).
      destruct (is_null inHost) eqn:Hnull; [left; reflexivity |].
      right. exists inHost.
      split; [left; reflexivity |].
      split; [now apply is_null_false | reflexivity].
    + right. exists h. split; [right; exact Hin |]. split; assumption.
Qed.

Lemma run_count_range (calls : list HostCall) (st : DriverState) :
  UInt32_range (sDriverRefCount st) ->
  UInt32_range (sDriverRefCount (run calls st)).
Proof.
  revert st. induction calls as [| c calls IH]; intros st Hrange.
  - exact Hrange.
  - simpl. apply IH, perform_count_range, Hrange.
Qed.





(** X11: only QueryInterface, AddRef, Release and Initialize write the
    driver state. A sequence of calls leaves the state that its calls of
    these four kinds alone leave, and a sequence without any of them leaves
    the state as it was: no device, client, property or IO call changes the
    reference count or the host. *)
Theorem run_depends_on_writers_only (calls : list HostCall) (st : DriverState) :
  run calls st = run (List.filter writes_state calls) st
  /\ (List.filter writes_state calls = [] -> run calls st = st).
Proof.
  assert (run calls st = run (List.filter writes_state calls) st) as Hrun.
  { revert st. induction calls as [| c calls IH]; intros st.
    - reflexivity.
    - simpl. destruct (writes_state c) eqn:Hwrites.
      + simpl. apply IH.
      + rewrite perform_frame by exact Hwrites. apply IH. }
  split; [exact Hrun |]. intros Hnone. rewrite Hrun, Hnone. reflexivity.
Qed.

Lemma run_depends_on_writers_only_witness :
  run [CallAddDeviceClient device_id client_A;
       CallSetPropertyData device_id 100 (Some sample_rate_address) 0 NULL 8
         (Foreign 3);
       CallDoIOOperation device_id stream_id 1
         kAudioServerPlugInIOOperationWriteMix 2 None (Some two_frames) None;
       CallDestroyDevice device_id]
    (set_sDriverRefCount initial_state 1)
  = set_sDriverRefCount initial_state 1.
Proof.
  apply (run_depends_on_writers_only
           [CallAddDeviceClient device_id client_A;
            CallSetPropertyData device_id 100 (Some sample_rate_address) 0
              NULL 8 (Foreign 3);
            CallDoIOOperation device_id stream_id 1
              kAudioServerPlugInIOOperationWriteMix 2 None (Some two_frames)
              None;
            CallDestroyDevice device_id]
           (set_sDriverRefCount initial_state 1)).
  reflexivity.
Defined.

(** X12: the host recorded after a sequence of calls is the argument of the
    last Initialize that was given a host, or the host recorded before if
    there was none. Once a host is recorded no call clears it, and a host
    that differs from the one before the calls was given to some Initialize
    among them. *)
Theorem run_records_last_host (calls : list HostCall) (st : DriverState) :
  sHost (run calls st) = host_after calls (sHost st)
  /\ (sHost st <> NULL -> sHost (run calls st) <> NULL)
  /\ (sHost (run calls st) = sHost st
      \/ exists h, In (CallInitialize h) calls /\ h <> NULL
                   /\ sHost (run calls st) = h).
Proof.
  assert (sHost (run calls st) = host_after calls (sHost st)) as Hrun.
  { revert st. induction calls as [| c calls IH]; intros st.
    - reflexivity.
    - simpl run. rewrite IH, perform_host. symmetry. apply host_after_cons. }
  rewrite Hrun. split; [reflexivity |]. split.
  - apply host_after_not_null.
  - apply host_after_origin.
Qed.

Lemma run_records_last_host_witness :
  sHost (run [CallInitialize (Foreign 5); CallRelease; CallInitialize NULL]
           initial_state)
  = Foreign 5.
Proof.
  pose proof (run_records_last_host
                [CallInitialize (Foreign 5); CallRelease; CallInitialize NULL]
                initial_state) as (Hlast & _).
  exact Hlast.
Defined.

Lemma perform_reply_any_state
  (driver : LPVOID) (c : HostCall) (st st' : DriverState) :
  returns_count c = false ->
  fst (perform gDriverInterface_table driver c st)
  = fst (perform gDriverInterface_table driver c st').
Proof.
  destruct c; simpl; intros Hcount; try discriminate; try reflexivity.
  - unfold PlugIn_QueryInterface. cbv zeta.
    destruct (is_null _); [reflexivity |]. destruct (_ || _); reflexivity.
  - unfold PlugIn_Initialize. destruct (is_null _); reflexivity.
  - unfold PlugIn_IsPropertySettable. destruct (is_null _); reflexivity.
  - unfold PlugIn_GetPropertyDataSize. destruct (is_null _); reflexivity.
  - unfold PlugIn_GetPropertyData. destruct (_ || _); reflexivity.
Qed.

(** X13: no status depends on the driver state. A sequence of calls other
    than AddRef and Release (which return the count) gets the same replies
    from any two states: nothing has to be initialized, added or started
    for a later call to succeed, and nothing that was done makes it fail. *)
Theorem replies_ignore_the_state
  (calls : list HostCall) (st st' : DriverState) :
  List.forallb (fun c => negb (returns_count c)) calls = true ->
  replies calls st = replies calls st'.
Proof.
  revert st st'. induction calls as [| c calls IH]; intros st st' Hcalls.
  - reflexivity.
  - simpl in Hcalls. apply andb_true_iff in Hcalls as [Hc Hrest].
    apply negb_true_iff in Hc. simpl.
    rewrite (perform_reply_any_state driver_ref c st st' Hc).
    f_equal. apply IH, Hrest.
Qed.

Lemma replies_ignore_the_state_witness :
  replies [CallStartIO device_id 1;
           CallGetPropertyDataSize device_id 100 (Some sample_rate_address) 0
             NULL (Foreign 1)]
    initial_state
  = replies [CallStartIO device_id 1;
             CallGetPropertyDataSize device_id 100 (Some sample_rate_address)
               0 NULL (Foreign 1)]
      (set_sHost (set_sDriverRefCount initial_state 2) (Foreign 5)).
Proof.
  apply (replies_ignore_the_state
           [CallStartIO device_id 1;
            CallGetPropertyDataSize device_id 100 (Some sample_rate_address)
              0 NULL (Foreign 1)]
           initial_state
           (set_sHost (set_sDriverRefCount initial_state 2) (Foreign 5))).
  reflexivity.
Defined.

(** X14: the client, IO-bracket and configuration-change notifications are
    unconditional. Any sequence of AddDeviceClient, RemoveDeviceClient,
    StartIO, StopIO, PerformDeviceConfigurationChange and
    AbortDeviceConfigurationChange calls, in any order and for any clients
    (a remove without an add, a stop without a start, the same client
    twice), is answered [kAudioHardwareNoError] throughout and leaves the
    state as it was. *)
Theorem notifications_always_succeed
  (calls : list HostCall) (st : DriverState) :
  List.forallb is_notification calls = true ->
  replies calls st = map (fun _ => ReplyStatus kAudioHardwareNoError) calls
  /\ run calls st = st.
Proof.
  revert st. induction calls as [| c calls IH]; intros st Hcalls.
  - split; reflexivity.
  - simpl in Hcalls. apply andb_true_iff in Hcalls as [Hc Hrest].
    destruct (IH st Hrest) as [Hreplies Hrun].
    destruct c; try discriminate; simpl; rewrite Hreplies, Hrun;
      split; reflexivity.
Qed.

Lemma notifications_always_succeed_witness :
  replies [CallRemoveDeviceClient device_id client_5; CallStopIO device_id 5;
           CallStopIO device_id 5]
    initial_state
  = [ReplyStatus kAudioHardwareNoError; ReplyStatus kAudioHardwareNoError;
     ReplyStatus kAudioHardwareNoError].
Proof.
  pose proof (notifications_always_succeed
                [CallRemoveDeviceClient device_id client_5;
                 CallStopIO device_id 5; CallStopIO device_id 5]
                initial_state eq_refl) as (Hreplies & _).
  exact Hreplies.
Defined.

(** ** The property protocol *)

(** X15: the driver has no property at all, and says so consistently.
    [PlugIn_HasProperty] answers false for every object and address, and for
    every object and address each of IsPropertySettable,
    GetPropertyDataSize, GetPropertyData and SetPropertyData fails, whatever
    the pointers and sizes; nothing is ever reported settable, and the state
    is left as it was. *)
Theorem property_calls_never_succeed
  (st : DriverState) (inDriver : LPVOID) (inObjectID : AudioObjectID)
  (pid : pid_t) (inAddress : option AudioObjectPropertyAddress)
  (inQualifierDataSize : UInt32) (inQualifierData : LPVOID)
  (inDataSize : UInt32)
  (outIsSettable outSize outDataSize outData inData : LPVOID) :
  let settable :=
    PlugIn_IsPropertySettable st inDriver inObjectID pid inAddress
      outIsSettable in
  let size :=
    PlugIn_GetPropertyDataSize st inDriver inObjectID pid inAddress
      inQualifierDataSize inQualifierData outSize in
  let data :=
    PlugIn_GetPropertyData st inDriver inObjectID pid inAddress
      inQualifierDataSize inQualifierData inDataSize outDataSize outData in
  let written :=
    PlugIn_SetPropertyData st inDriver inObjectID pid inAddress
      inQualifierDataSize inQualifierData inDataSize inData in
  PlugIn_HasProperty st inDriver inObjectID pid inAddress = false
  /\ failed (fst (fst settable)) /\ failed (fst (fst size))
  /\ failed (fst (fst (fst data))) /\ failed (fst written)
  /\ snd (fst settable) <> Some true
  /\ snd settable = st /\ snd size = st /\ snd data = st /\ snd written = st.
Proof.
  cbv zeta.
  unfold PlugIn_HasProperty, PlugIn_IsPropertySettable,
    PlugIn_GetPropertyDataSize, PlugIn_GetPropertyData, PlugIn_SetPropertyData.
  destruct (is_null outIsSettable), (is_null outSize),
    (is_null outDataSize || is_null outData); simpl;
    repeat split; discriminate.
Qed.

(** X16: the property queries store through [outIsSettable] and
    [outDataSize] exactly when they do not answer
    [kAudioHardwareIllegalOperationError], and they answer it exactly when a
    pointer they need is null. [PlugIn_GetPropertyData] needs both
    [outDataSize] and [outData]: with a null [outData] nothing is stored
    through a good [outDataSize] either. The capacity [inDataSize] of the
    buffer is never looked at. *)
Theorem property_queries_store_unless_illegal
  (st : DriverState) (inDriver : LPVOID) (inObjectID : AudioObjectID)
  (pid : pid_t) (inAddress : option AudioObjectPropertyAddress)
  (inQualifierDataSize : UInt32) (inQualifierData : LPVOID)
  (inDataSize inDataSize' : UInt32)
  (outIsSettable outSize outDataSize outData : LPVOID) :
  let settable :=
    PlugIn_IsPropertySettable st inDriver inObjectID pid inAddress
      outIsSettable in
  let size :=
    PlugIn_GetPropertyDataSize st inDriver inObjectID pid inAddress
      inQualifierDataSize inQualifierData outSize in
  let data :=
    PlugIn_GetPropertyData st inDriver inObjectID pid inAddress
      inQualifierDataSize inQualifierData inDataSize outDataSize outData in
  (fst (fst settable) = kAudioHardwareIllegalOperationError <->
   outIsSettable = NULL)
  /\ (snd (fst settable) = None <-> outIsSettable = NULL)
  /\ (fst (fst size) = kAudioHardwareIllegalOperationError <-> outSize = NULL)
  /\ (snd (fst size) = None <-> outSize = NULL)
  /\ (fst (fst (fst data)) = kAudioHardwareIllegalOperationError <->
      outDataSize = NULL \/ outData = NULL)
  /\ (snd (fst (fst data)) = None <-> outDataSize = NULL \/ outData = NULL)
  /\ data
     = PlugIn_GetPropertyData st inDriver inObjectID pid inAddress
         inQualifierDataSize inQualifierData inDataSize' outDataSize outData.
Proof.
  cbv zeta.
  unfold PlugIn_IsPropertySettable, PlugIn_GetPropertyDataSize,
    PlugIn_GetPropertyData.
  destruct outIsSettable, outSize, outDataSize, outData; simpl;
    repeat split; intros; try discriminate; try reflexivity; try tauto;
    try (left; reflexivity); try (right; reflexivity);
    try (match goal with H : _ \/ _ |- _ => destruct H; discriminate end).
Qed.

Lemma property_queries_store_unless_illegal_witness :
  fst (fst (fst (PlugIn_GetPropertyData initial_state driver_ref device_id 0
                   (Some sample_rate_address) 0 NULL 8 (Foreign 1) NULL)))
  = kAudioHardwareIllegalOperationError
  /\ snd (fst (fst (PlugIn_GetPropertyData initial_state driver_ref device_id
                      0 (Some sample_rate_address) 0 NULL 8 (Foreign 1) NULL)))
     = None.
Proof.
  pose proof (property_queries_store_unless_illegal initial_state driver_ref
                device_id 0 (Some sample_rate_address) 0 NULL 8 8 NULL NULL
                (Foreign 1) NULL) as (_ & _ & _ & _ & Hstatus & Hstore & _).
  split; [apply Hstatus | apply Hstore]; right; reflexivity.
Defined.

(** ** Timing and IO *)

(** X17: [PlugIn_GetZeroTimeStamp] answers [kAudioHardwareNoError] whatever
    pointers it is given, all null included, and stores through exactly the
    pointers that are not null: sample time 0, host time 0 and seed 1. The
    answer is the same in every state and for every device and client, so
    the seed never moves between calls. *)
Theorem GetZeroTimeStamp_is_constant
  (st st' : DriverState) (inDriver inDriver' : LPVOID)
  (inDeviceObjectID inDeviceObjectID' : AudioObjectID)
  (inClientID inClientID' : UInt32)
  (outSampleTime outHostTime outSeed : LPVOID) :
  let result :=
    PlugIn_GetZeroTimeStamp st inDriver inDeviceObjectID inClientID
      outSampleTime outHostTime outSeed in
  let '(status, sampleTime, hostTime, seed, st1) := result in
  status = kAudioHardwareNoError /\ st1 = st
  /\ (sampleTime = None <-> outSampleTime = NULL)
  /\ (hostTime = None <-> outHostTime = NULL)
  /\ (seed = None <-> outSeed = NULL)
  /\ (forall t, sampleTime = Some t -> t = 0%float)
  /\ (forall t, hostTime = Some t -> t = 0)
  /\ (forall s, seed = Some s -> s = 1)
  /\ fst result
     = fst (PlugIn_GetZeroTimeStamp st' inDriver' inDeviceObjectID'
              inClientID' outSampleTime outHostTime outSeed).
Proof.
  unfold PlugIn_GetZeroTimeStamp, store_if_set. cbv zeta.
  destruct outSampleTime, outHostTime, outSeed; simpl;
    repeat split; intros; try discriminate; try reflexivity; congruence.
Qed.

(** X18: [PlugIn_WillDoIOOperation] gives one answer for every operation,
    client and device: [kAudioHardwareNoError], "will not do" through
    [outWillDo] and "in place" through [outWillDoInPlace], each stored
    exactly when its pointer is not null. It never announces an operation,
    and never one that is not in place. *)
Theorem WillDoIOOperation_declines_everything
  (st : DriverState) (inDriver : LPVOID) (inDeviceObjectID : AudioObjectID)
  (inClientID inOperationID : UInt32) (outWillDo outWillDoInPlace : LPVOID) :
  let '(status, willDo, willDoInPlace, st1) :=
    PlugIn_WillDoIOOperation st inDriver inDeviceObjectID inClientID
      inOperationID outWillDo outWillDoInPlace in
  status = kAudioHardwareNoError /\ st1 = st
  /\ willDo <> Some true /\ willDoInPlace <> Some false
  /\ (willDo = None <-> outWillDo = NULL)
  /\ (willDoInPlace = None <-> outWillDoInPlace = NULL).
Proof.
  unfold PlugIn_WillDoIOOperation, store_if_set.
  destruct outWillDo, outWillDoInPlace; simpl;
    repeat split; intros; try discriminate; try reflexivity.
Qed.

Lemma io_cycles_pass_through
  (n : nat) (st : DriverState) (dev stream : AudioObjectID)
  (client op frames : UInt32) (info : option AudioServerPlugInIOCycleInfo)
  (main secondary : option (list Float32)) :
  io_cycles n st dev stream client op frames info main secondary
  = (repeat kAudioHardwareNoError (3 * n), main, secondary, st).
Proof.
  induction n as [| n IH].
  - reflexivity.
  - cbn [io_cycles]. unfold PlugIn_BeginIOOperation, PlugIn_DoIOOperation,
      PlugIn_EndIOOperation. cbn [fst snd]. rewrite IH.
    replace (3 * S n)%nat with (S (S (S (3 * n)))) by lia. reflexivity.
Qed.

(** X19: a whole IO session, StartIO, then any number [n] of Begin, Do, End
    cycles, then StopIO, gets [kAudioHardwareNoError] from each of its
    [3 n + 2] calls and ends with both buffers and the driver state exactly
    as they were at the start: the audio passes through unchanged however
    long the session is. *)
Theorem io_session_passes_audio_through
  (n : nat) (st : DriverState) (dev stream : AudioObjectID)
  (client op frames : UInt32) (info : option AudioServerPlugInIOCycleInfo)
  (main secondary : option (list Float32)) :
  io_session n st dev stream client op frames info main secondary
  = (repeat kAudioHardwareNoError (3 * n + 2), main, secondary, st).
Proof.
  unfold io_session. rewrite io_cycles_pass_through.
  unfold PlugIn_StartIO, PlugIn_StopIO. cbn [fst snd]. f_equal. f_equal.
  f_equal. replace (3 * n + 2)%nat with (S (3 * n + 1)) by lia.
  cbn [repeat]. f_equal. rewrite repeat_app. reflexivity.
Qed.

(** ** Logging *)

(** X20: the log is created once. When [os_log_create] hands out logs that
    are not null, the first [GetPlugInLog] creates one and every later call,
    however many log lines are written, returns that same log and creates
    nothing more. *)
Theorem GetPlugInLog_creates_once
  (os_log_create : nat -> string -> string -> LPVOID) (n : nat) :
  (forall k subsystem category, os_log_create k subsystem category <> NULL) ->
  let first :=
    os_log_create 0%nat "com.fbreidenbach.appfaders.driver"%string "PlugIn"%string in
  let ls := log_lines os_log_create (S n) initial_log in
  ls = {| sPlugInLog := first; logs_created := 1 |}
  /\ GetPlugInLog os_log_create ls = (first, ls)
  /\ fst (GetPlugInLog os_log_create initial_log) = first.
Proof.
  intros Hcreate. cbv zeta.
  assert (log_lines os_log_create (S n) initial_log
          = {| sPlugInLog :=
                 os_log_create 0%nat "com.fbreidenbach.appfaders.driver"%string
                   "PlugIn"%string;
               logs_created := 1 |}) as Hlines.
  { induction n as [| n IH].
    - reflexivity.
    - unfold log_lines in *. rewrite Nat.iter_succ, IH.
      unfold GetPlugInLog. cbn [sPlugInLog].
      pose proof (Hcreate 0%nat "com.fbreidenbach.appfaders.driver"%string
                    "PlugIn"%string) as Hfirst.
      apply is_null_false in Hfirst. rewrite Hfirst. reflexivity. }
  rewrite Hlines. split; [reflexivity |]. split; [| reflexivity].
  unfold GetPlugInLog. cbn [sPlugInLog].
  pose proof (Hcreate 0%nat "com.fbreidenbach.appfaders.driver"%string
                "PlugIn"%string) as Hfirst.
  apply is_null_false in Hfirst. rewrite Hfirst. reflexivity.
Qed.

Lemma GetPlugInLog_creates_once_witness :
  log_lines (fun k _ _ => Foreign (Pos.of_succ_nat k)) 4 initial_log
  = {| sPlugInLog := Foreign 1; logs_created := 1 |}.
Proof.
  pose proof (GetPlugInLog_creates_once
                (fun k _ _ => Foreign (Pos.of_succ_nat k)) 3) as Honce.
  destruct Honce as (Hstate & _); [discriminate |]. exact Hstate.
Defined.

(** ** Two calls of [PlugIn_Release] at once *)

Lemma interleave_one_call_alone
  (st : DriverState) (inDriver : LPVOID) (b : ReleaseCall) :
  interleave [CallerA; CallerA] Entered b st
  = (Returned (fst (PlugIn_Release st inDriver)), b,
     snd (PlugIn_Release st inDriver)).
Proof. reflexivity. Qed.

(** C9: the code misses what it sets out to do when two calls overlap. With
    the count at 1, two calls of [PlugIn_Release] that both load the count
    before either subtracts both pass the [oldCount > 0] test: the first
    leaves 0 and returns 0, the second wraps the count to [0xFFFFFFFF] and
    returns [0xFFFFFFFF]. The same two calls made one after the other leave
    0 and return 0 twice. *)
Theorem concurrent_releases_underflow :
  interleave [CallerA; CallerB; CallerA; CallerB] Entered Entered
    (set_sDriverRefCount initial_state 1)
  = (Returned 0, Returned 4294967295,
     set_sDriverRefCount initial_state 4294967295)
  /\ 4294967295 = UInt32_max
  /\ interleave [CallerA; CallerA; CallerB; CallerB] Entered Entered
       (set_sDriverRefCount initial_state 1)
     = (Returned 0, Returned 0, set_sDriverRefCount initial_state 0).
Proof.
  split; [reflexivity |]. split; reflexivity.
Qed.
